(** * NerNetwork (deeppavlov/models/ner/network_refactored.py)

    A shallow embedding of the graph-building code of [NerNetwork].

    The Python methods become Rocq functions in a state-and-exception
    monad: the state holds the attribute dictionary of [self] and the
    graph collection of regularisation losses; an exception aborts the
    rest of a method but keeps the attribute writes made so far.  The
    TensorFlow graph that the methods build is data: a term of type
    [tensor].  Its numeric meaning (for the loss) is given by [eval].

    Functions imported from other modules of the repository
    (deeppavlov.core.layers.tf_layers, TFModel, check_gpu_existance) are
    not part of this file's source; they are fields of the record
    [collaborators], and every theorem says which behaviour of them it
    relies on.

    The source gives [_fill_feed_dict] a header and no body; it is not
    modelled. *)

From Stdlib Require Import ZArith QArith Reals Lra String Ascii List DecimalString.
From stdpp Require Import gmap strings list.
Import ListNotations.

Set Warnings "-register-all".

Local Open Scope string_scope.
Local Open Scope list_scope.

(** ** Python exceptions *)

Inductive exn : Type :=
| TypeError (msg : string)
| ValueError (msg : string)
| AttributeError (attr : string)
| UnboundLocalError (var : string)
| IndexError (msg : string)
| RuntimeError (msg : string)
| Warning (msg : string).

(** ** Graph terms *)

Inductive dtype : Type := tf_int32 | tf_float32 | tf_bool.

Inductive activation : Type := tf_nn_relu.

(** A node of the TensorFlow graph.  [Opaque] stands for the output of a
    collaborator layer: only its name, its inputs and the width of its
    last axis are known. *)
Inductive tensor : Type :=
| Placeholder (dt : dtype) (shp : list (option Z)) (name : option string)
| PlaceholderWithDefault (default : Q) (name : string)
| PlaceholderWithDefaultBool (default : bool) (name : string)
| Opaque (name : string) (inputs : list tensor) (width : option Z)
| ConstInt (z : Z)
| Const (q : Q)
| ShapeAt (t : tensor) (axis : nat)
| LayersDropout (inputs rate : tensor) (noise_shape : list tensor) (training : bool)
| Concat (values : list tensor) (axis : Z)
| Dense (inputs : tensor) (units : Z) (act : option activation)
| L2LossKernel (layer : tensor)
| ReduceSum (t : tensor) (axis : Z)
| CrfLogLikelihood (inputs tag_indices sequence_lengths : tensor)
| CrfTransitionParams (inputs : tensor)
| Neg (t : tensor)
| OneHot (indices : tensor) (depth : Z)
| SoftmaxCrossEntropyWithLogits (labels logits : tensor)
| Mul (a b : tensor)
| Add (a b : tensor)
| Pack (values : list tensor)
| ReduceMean (t : tensor).

(** ** Python values held by attributes and passed between methods *)

(** A dense array as numpy and TensorFlow hold it: a shape and the items
    in row-major order. *)
Record ndarray (A : Type) : Type := mk_nd {
  nd_shape : list nat;
  nd_data : list A
}.
Arguments mk_nd {A} nd_shape nd_data.
Arguments nd_shape {A} _.
Arguments nd_data {A} _.

Inductive pyval : Type :=
| VNone
| VTensor (t : tensor)
| VTensorList (l : list tensor)
| VTrainOp (total_loss learning_rate : tensor) (clip_norm : Q)
| VSession (visible_device_list : option string)
| VBool (b : bool)
| VArray (a : ndarray Q)
| VSeqs (l : list (list nat)).

(** ** State and monad *)

Record state : Type := mkState {
  self_dict : gmap string pyval;
  regularization_losses : list tensor
}.

Definition M (A : Type) : Type := state -> state * (exn + A).

Definition ret {A} (a : A) : M A := fun st => (st, inr a).

Definition raise {A} (e : exn) : M A := fun st => (st, inl e).

Definition bind {A B} (m : M A) (k : A -> M B) : M B :=
  fun st =>
    match m st with
    | (st', inl e) => (st', inl e)
    | (st', inr a) => k a st'
    end.

Notation "x <~ c ;; k" := (bind c (fun x => k))
  (at level 20, c at level 99, k at level 200, only parsing).
Notation "'exec' c ;; k" := (bind c (fun _ => k))
  (at level 20, c at level 99, k at level 200, only parsing).

(** A call into a collaborator: it returns or raises, and does not touch
    the attributes of [self]. *)
Definition call {A} (r : exn + A) : M A := fun st => (st, r).

Definition initial_state : state :=
  {| self_dict := ∅; regularization_losses := [] |}.

Definition set_attr (st : state) (name : string) (v : pyval) : state :=
  {| self_dict := <[name := v]> (self_dict st);
     regularization_losses := regularization_losses st |}.

(** Running a method from a state. *)
Definition run {A} (m : M A) (st : state) : state * (exn + A) := m st.

(** ** Python built-ins used by the source *)

Definition upper_ascii (c : ascii) : ascii :=
  let n := nat_of_ascii c in
  if (97 <=? n)%nat && (n <=? 122)%nat then ascii_of_nat (n - 32) else c.

Definition lower_ascii (c : ascii) : ascii :=
  let n := nat_of_ascii c in
  if (65 <=? n)%nat && (n <=? 90)%nat then ascii_of_nat (n + 32) else c.

Fixpoint map_string (f : ascii -> ascii) (s : string) : string :=
  match s with
  | EmptyString => EmptyString
  | String c r => String (f c) (map_string f r)
  end.

(** [s.upper()] and [s.lower()], on ASCII letters. *)
Definition upper (s : string) : string := map_string upper_ascii s.
Definition lower (s : string) : string := map_string lower_ascii s.

(** [str(n)] for an integer. *)
Definition str_nat (n : nat) : string := NilEmpty.string_of_uint (Nat.to_uint n).
Definition str (z : Z) : string := NilEmpty.string_of_int (Z.to_int z).

Fixpoint enumerate_from {A} (i : nat) (l : list A) : list (nat * A) :=
  match l with
  | [] => []
  | a :: r => (i, a) :: enumerate_from (S i) r
  end.

(** [enumerate(l)] *)
Definition enumerate {A} (l : list A) : list (nat * A) := enumerate_from 0 l.

(** [l[-1]] *)
Definition last_item {A} (l : list A) : exn + A :=
  match List.rev l with
  | [] => inl (IndexError "tuple index out of range")
  | a :: _ => inr a
  end.

(** [a, b, c = t] for a tuple [t]. *)
Definition unpack3 {A} (t : list A) : exn + (A * A * A) :=
  match t with
  | [a; b; c] => inr (a, b, c)
  | _ =>
      if (length t <? 3)%nat
      then inl (ValueError ("not enough values to unpack (expected 3, got "
                              ++ str_nat (length t) ++ ")"))
      else inl (ValueError "too many values to unpack (expected 3)")
  end.

(** [0 < q], the test [l2_reg > 0]. *)
Definition Qpositive (q : Q) : bool :=
  match (0 ?= q)%Q with Lt => true | _ => false end.

(** Control flow of a [for] body: go on with the next item, or leave the
    enclosing function with a value. *)
Inductive ctl (A R : Type) : Type :=
| Next (a : A)
| Return (r : R).
Arguments Next {A R} a.
Arguments Return {A R} r.

(** [for i in items: body], threading the variables the body rebinds. *)
Fixpoint for_each {I A R} (items : list I) (body : I -> A -> M (ctl A R)) (a : A)
  : M (ctl A R) :=
  match items with
  | [] => ret (Next a)
  | i :: rest =>
      c <~ body i a ;;
      match c with
      | Next a' => for_each rest body a'
      | Return r => ret (Return r)
      end
  end.

(** ** numpy values *)

(** The number of items of an array of the given shape. *)
Definition size_of (shp : list nat) : nat := fold_right Nat.mul 1%nat shp.

(** [count] consecutive rows of [width] items each. *)
Fixpoint chunks {A} (count width : nat) (l : list A) : list (list A) :=
  match count with
  | O => []
  | S c => firstn width l :: chunks c width (skipn width l)
  end.

(** The items of an array along its first axis. *)
Definition nd_items {A} (a : ndarray A) : option (list (ndarray A)) :=
  match nd_shape a with
  | [] => None
  | n :: rest => Some (List.map (mk_nd rest) (chunks n (size_of rest) (nd_data a)))
  end.

(** Iterating a fetched array. *)
Definition iter_array (v : pyval) : exn + list (ndarray Q) :=
  match v with
  | VArray a =>
      match nd_items a with
      | Some items => inr items
      | None => inl (TypeError "iteration over a 0-d array")
      end
  | _ => inl (TypeError "object is not iterable")
  end.

(** [int(q)]: truncation towards zero. *)
Definition Qtrunc (q : Q) : Z := Z.quot (Qnum q) (Z.pos (Qden q)).

(** [int(a)], defined for an array of one item. *)
Definition py_int (a : ndarray Q) : exn + Z :=
  match nd_data a with
  | [q] => inr (Qtrunc q)
  | _ => inl (TypeError "only size-1 arrays can be converted to Python scalars")
  end.

(** The number of items that [l[:k]] keeps of [n], with Python's reading
    of a negative [k]. *)
Definition slice_count (k : Z) (n : nat) : nat :=
  if (0 <=? k)%Z then Nat.min (Z.to_nat k) n
  else Z.to_nat (Z.of_nat n + k).

(** [a[:k]] *)
Definition nd_slice_to {A} (k : Z) (a : ndarray A) : exn + ndarray A :=
  match nd_shape a with
  | [] => inl (IndexError "invalid index to scalar variable.")
  | n :: rest =>
      let m := slice_count k n in
      inr (mk_nd (m :: rest) (firstn (m * size_of rest) (nd_data a)))
  end.

(** The rows of an array of rank two. *)
Definition nd_matrix {A} (a : ndarray A) : option (list (list A)) :=
  match nd_shape a with
  | [rows; cols] => Some (chunks rows cols (nd_data a))
  | _ => None
  end.

(** ** The TensorFlow functions the source calls *)

Definition tf_placeholder (dt : dtype) (shp : list (option Z)) (name : option string)
  : tensor := Placeholder dt shp name.

(** [tf.concat(values, axis, name='concat')]: [axis] has no default. *)
Definition tf_concat (values : list tensor) (axis : option Z) : exn + tensor :=
  match axis with
  | None => inl (TypeError "concat() missing 1 required positional argument: 'axis'")
  | Some a => inr (Concat values a)
  end.

(** [tf.layers.dropout(inputs, rate, noise_shape=..., training=False)]:
    the source never passes [training]. *)
Definition tf_layers_dropout (inputs rate : tensor) (noise_shape : list tensor)
  : tensor := LayersDropout inputs rate noise_shape false.

(** [tf.layers.dense(..., kernel_regularizer=tf.nn.l2_loss)]: the layer's
    penalty joins the collection REGULARIZATION_LOSSES. *)
Definition tf_layers_dense (inputs : tensor) (units : Z) (act : option activation)
  : M tensor :=
  fun st =>
    let layer := Dense inputs units act in
    ({| self_dict := self_dict st;
        regularization_losses := regularization_losses st ++ [L2LossKernel layer] |},
     inr layer).

(** [tf.get_collection(tf.GraphKeys.REGULARIZATION_LOSSES)] *)
Definition tf_get_collection_regularization_losses : M (list tensor) :=
  fun st => (st, inr (regularization_losses st)).

(** *** tf.contrib.crf.viterbi_decode

    The numpy routine of TensorFlow, for a score of shape [L, T] and
    transitions of shape [T, T] with T at least 1.  Other shapes are
    rejected here with a ValueError, where numpy would broadcast or fail;
    a score with no row fails as in numpy, on [score[0]]. *)

Fixpoint np_max_from (best : Q) (l : list Q) : Q :=
  match l with
  | [] => best
  | x :: r => np_max_from (if Qle_bool x best then best else x) r
  end.

(** [np.max(l)] *)
Definition np_max (l : list Q) : Q :=
  match l with
  | [] => 0
  | x :: r => np_max_from x r
  end.

Fixpoint np_argmax_from (best_i : nat) (best : Q) (i : nat) (l : list Q) : nat :=
  match l with
  | [] => best_i
  | x :: r =>
      if Qle_bool x best then np_argmax_from best_i best (S i) r
      else np_argmax_from i x (S i) r
  end.

(** [np.argmax(l)]: the first index of the maximum. *)
Definition np_argmax (l : list Q) : nat :=
  match l with
  | [] => 0%nat
  | x :: r => np_argmax_from 0 x 1 r
  end.

(** One turn of the forward loop: the new trellis row and its
    backpointers.  Column [j] of [v] is [trellis[t-1][i] + transition[i][j]]
    over [i]. *)
Definition viterbi_step (transition_params : list (list Q)) (prev row : list Q)
  : list Q * list nat :=
  let T := length row in
  let column j :=
    List.map (fun i => (nth i prev 0 + nth j (nth i transition_params []) 0)%Q)
      (seq 0 T) in
  let v := List.map column (seq 0 T) in
  (List.map (fun p => (fst p + np_max (snd p))%Q) (combine row v),
   List.map np_argmax v).

(** The forward loop: the last trellis row and [backpointers[1:]]. *)
Fixpoint viterbi_forward (transition_params : list (list Q)) (prev : list Q)
    (rows : list (list Q)) : list Q * list (list nat) :=
  match rows with
  | [] => (prev, [])
  | row :: rest =>
      let '(cur, bp) := viterbi_step transition_params prev row in
      let '(final, bps) := viterbi_forward transition_params cur rest in
      (final, bp :: bps)
  end.

(** [for bp in reversed(backpointers[1:]): viterbi.append(bp[viterbi[-1]])] *)
Definition viterbi_backtrack (start : nat) (reversed_bps : list (list nat))
  : list nat :=
  fold_left (fun viterbi bp => viterbi ++ [nth (List.last viterbi 0%nat) bp 0%nat])
    reversed_bps [start].

Definition well_shaped (score transition_params : list (list Q)) : bool :=
  match score with
  | [] => true
  | row :: _ =>
      let T := length row in
      (1 <=? T)%nat
      && forallb (fun r => (length r =? T)%nat) score
      && (length transition_params =? T)%nat
      && forallb (fun r => (length r =? T)%nat) transition_params
  end.

Definition viterbi_decode (score transition_params : list (list Q))
  : exn + (list nat * Q) :=
  match score with
  | [] => inl (IndexError "index 0 is out of bounds for axis 0 with size 0")
  | first :: rest =>
      if well_shaped score transition_params
      then
        let '(final, bps) := viterbi_forward transition_params first rest in
        let viterbi := viterbi_backtrack (np_argmax final) (List.rev bps) in
        inr (List.rev viterbi, np_max final)
      else inl (ValueError "operands could not be broadcast together")
  end.

(** ** Collaborators from the rest of the repository *)

Record collaborators : Type := {
  (** deeppavlov.core.common.utils *)
  check_gpu_existance : bool;
  (** deeppavlov.core.layers.tf_layers *)
  embedding_layer : tensor -> option (Z * Z) -> exn + tensor;
  character_embedding_network : exn + tensor;
  variational_dropout : tensor -> tensor -> exn + tensor;
  cudnn_bi_lstm : string -> tensor -> Z -> exn + ((tensor * tensor) * pyval);
  cudnn_bi_gru : string -> tensor -> Z -> exn + ((tensor * tensor) * pyval);
  bi_rnn : tensor -> Z -> string -> string -> exn + ((tensor * tensor) * pyval);
  stacked_cnn : tensor -> list Z -> Z -> bool -> tensor -> exn + tensor;
  (** TFModel: the inherited method and the attributes the base classes
      define *)
  get_train_op : tensor -> tensor -> Q -> exn + pyval;
  inherited : gmap string pyval;
  (** the session of the numeric engine *)
  tf_Session : option string -> exn + pyval;
  session_run : pyval -> list pyval -> list (tensor * pyval) -> exn + list pyval;
  session_run_one : pyval -> pyval -> list (tensor * pyval) -> exn + pyval
}.

(** ** Constructor arguments *)

Record config : Type := {
  n_tags : Z;
  char_emb_dim : option Z;
  capitalization_dim : option Z;
  pos_features_dim : option Z;
  net_type : string;
  cell_type : string;
  use_cudnn_rnn : bool;
  two_dense_on_top : bool;
  n_hidden_list : list Z;
  cnn_filter_width : Z;
  use_crf : bool;
  token_emb_mat : option (Z * Z);
  char_emb_mat : option (Z * Z);
  use_batch_norm : bool;
  embeddings_dropout : bool;
  top_dropout : bool;
  intra_layer_dropout : bool;
  l2_reg : Q;
  clip_grad_norm : Q;
  gpu : option Z
}.

(** The defaults of [__init__]; [n_tags] has none. *)
Definition default_config (n : Z) : config := {|
  n_tags := n;
  char_emb_dim := None;
  capitalization_dim := None;
  pos_features_dim := None;
  net_type := "rnn";
  cell_type := "lstm";
  use_cudnn_rnn := false;
  two_dense_on_top := false;
  n_hidden_list := [128%Z];
  cnn_filter_width := 7;
  use_crf := false;
  token_emb_mat := None;
  char_emb_mat := None;
  use_batch_norm := false;
  embeddings_dropout := false;
  top_dropout := false;
  intra_layer_dropout := false;
  l2_reg := 0;
  clip_grad_norm := 5;
  gpu := None
|}.

(** ** The class NerNetwork *)

Definition GRAPH_PARAMS : list string :=
  ["n_filters"; "filter_width"; "token_embeddings_dim"; "char_embeddings_dim";
   "use_char_embeddings"; "use_batch_norm"; "use_crf"; "net_type";
   "char_filter_width"; "cell_type"].

Section NerNetwork.

Context (env : collaborators).

(** [self.name = v] *)
Definition setattr (name : string) (v : pyval) : M unit :=
  fun st => (set_attr st name v, inr tt).

(** [self.name]: the instance dictionary first, then what the base
    classes define. *)
Definition getattr (name : string) : M pyval :=
  fun st =>
    match self_dict st !! name with
    | Some v => (st, inr v)
    | None =>
        match inherited env !! name with
        | Some v => (st, inr v)
        | None => (st, inl (AttributeError name))
        end
    end.

Definition getattr_tensor (name : string) : M tensor :=
  v <~ getattr name ;;
  match v with
  | VTensor t => ret t
  | _ => raise (TypeError ("attribute " ++ name ++ " is not a tensor"))
  end.

(** [self.name.append(t)] *)
Definition attr_append (name : string) (t : tensor) : M unit :=
  v <~ getattr name ;;
  match v with
  | VTensorList l => setattr name (VTensorList (l ++ [t]))
  | _ => raise (AttributeError "append")
  end.

Definition _build_training_placeholders : M unit :=
  exec setattr "learning_rate_ph"
         (VTensor (tf_placeholder tf_float32 [] (Some "learning_rate"))) ;;
  exec setattr "_dropout_ph" (VTensor (PlaceholderWithDefault 1 "dropout")) ;;
  setattr "training_ph" (VTensor (PlaceholderWithDefaultBool false "is_training")).

Definition _build_word_embeddings (token_emb_mat : option (Z * Z))
    (embeddings_dropout : bool) : M unit :=
  let token_indices_ph := tf_placeholder tf_int32 [None; None] None in
  emb <~ call (embedding_layer env token_indices_ph token_emb_mat) ;;
  emb <~ (if embeddings_dropout
          then
            rate <~ getattr_tensor "_dropout_ph" ;;
            ret (tf_layers_dropout emb rate [ShapeAt emb 0; ConstInt 1; ShapeAt emb 2])
          else ret emb) ;;
  exec attr_append "_xs_placeholders" token_indices_ph ;;
  attr_append "_input_features" emb.

Definition _build_mask : M tensor :=
  let mask_ph := tf_placeholder tf_float32 [None; None] (Some "Mask_ph") in
  exec attr_append "_xs_placeholders" mask_ph ;;
  ret mask_ph.

Definition _build_char_embeddings (char_emb_mat : option (Z * Z))
    (embeddings_dropout : bool) : M unit :=
  let character_indices_ph :=
    tf_placeholder tf_int32 [None; None; None] (Some "Char_ph") in
  exec call (character_embedding_network env) ;;
  ret tt.

Definition _build_capitalization (capitalization_dim : Z) : M unit :=
  let capitalization_ph :=
    tf_placeholder tf_int32 [None; None; Some capitalization_dim]
      (Some "Capitalization_ph") in
  exec attr_append "_xs_placeholders" capitalization_ph ;;
  attr_append "_input_features" capitalization_ph.

Definition _build_pos (pos_features_dim : Z) : M unit :=
  let pos_ph :=
    tf_placeholder tf_int32 [None; None; Some pos_features_dim] (Some "POS_ph") in
  exec attr_append "_xs_placeholders" pos_ph ;;
  attr_append "_input_features" pos_ph.

Definition dquote : string := String (ascii_of_nat 34) EmptyString.

Definition wrong_cell_type (cell_type : string) : exn :=
  RuntimeError ("Wrong cell type " ++ dquote ++ cell_type ++ dquote
                ++ "! Only " ++ dquote ++ "gru" ++ dquote ++ " and "
                ++ dquote ++ "lstm" ++ dquote ++ "!").

(** The body of the loop of [_build_cudnn_rnn]: its last statement is
    [return units]. *)
Definition cudnn_rnn_body (n_hidden_list : list Z) (cell_type : string)
    (intra_layer_dropout : bool) (item : nat * Z) (units : tensor)
  : M (ctl tensor tensor) :=
  let '(n, n_hidden) := item in
  let scope := (upper cell_type ++ "_" ++ str_nat n)%string in
  out <~ (if String.eqb (lower cell_type) "lstm"
          then call (cudnn_bi_lstm env scope units n_hidden)
          else if String.eqb (lower cell_type) "gru"
          then call (cudnn_bi_gru env scope units n_hidden)
          else raise (wrong_cell_type cell_type)) ;;
  let '((fw, bw), _) := out in
  units <~ call (tf_concat [fw; bw] (Some (-1)%Z)) ;;
  units <~ (if intra_layer_dropout
               && negb (Z.of_nat n =? Z.of_nat (length n_hidden_list) - 1)%Z
            then
              keep <~ getattr_tensor "_dropout_ph" ;;
              call (variational_dropout env units keep)
            else ret units) ;;
  ret (Return units).

(** Falling off the end of the function returns Python's [None]. *)
Definition _build_cudnn_rnn (units : tensor) (n_hidden_list : list Z)
    (cell_type : string) (intra_layer_dropout : bool) : M (option tensor) :=
  if negb (check_gpu_existance env)
  then raise (RuntimeError
                "Usage of cuDNN RNN layers require GPU along with cuDNN library")
  else
    c <~ for_each (enumerate n_hidden_list)
           (cudnn_rnn_body n_hidden_list cell_type intra_layer_dropout) units ;;
    match c with
    | Return u => ret (Some u)
    | Next _ => ret None
    end.

Definition rnn_body (n_hidden_list : list Z) (cell_type : string)
    (intra_layer_dropout : bool) (item : nat * Z) (units : tensor)
  : M (ctl tensor tensor) :=
  let '(n, n_hidden) := item in
  out <~ call (bi_rnn env units n_hidden cell_type ("Layer_" ++ str_nat n)%string) ;;
  let '((fw, bw), _) := out in
  units <~ call (tf_concat [fw; bw] (Some (-1)%Z)) ;;
  units <~ (if intra_layer_dropout
               && negb (Z.of_nat n =? Z.of_nat (length n_hidden_list) - 1)%Z
            then
              keep <~ getattr_tensor "_dropout_ph" ;;
              call (variational_dropout env units keep)
            else ret units) ;;
  ret (Next units).

Definition _build_rnn (units : tensor) (n_hidden_list : list Z)
    (cell_type : string) (intra_layer_dropout : bool) : M tensor :=
  c <~ for_each (enumerate n_hidden_list)
         (rnn_body n_hidden_list cell_type intra_layer_dropout) units ;;
  match c with
  | Return u => ret u
  | Next u => ret u
  end.

Definition _build_cnn (units : tensor) (n_hidden_list : list Z)
    (cnn_filter_width : Z) (use_batch_norm : bool) : M tensor :=
  training <~ getattr_tensor "training_ph" ;;
  call (stacked_cnn env units n_hidden_list cnn_filter_width use_batch_norm training).

Definition _build_top (units : tensor) (n_tags n_hididden : Z)
    (top_dropout two_dense_on_top : bool) : M tensor :=
  units <~ (if top_dropout
            then
              keep <~ getattr_tensor "_dropout_ph" ;;
              call (variational_dropout env units keep)
            else ret units) ;;
  units <~ (if two_dense_on_top
            then tf_layers_dense units n_hididden (Some tf_nn_relu)
            else ret units) ;;
  tf_layers_dense units n_tags None.

(** The value is the two-element tuple of the source's last line,
    [return train_op, loss,]. *)
Definition _build_train_predict (logits mask : tensor) (n_tags : Z)
    (use_crf : bool) (clip_grad_norm l2_reg : Q) : M (list pyval) :=
  loss_tensor <~ (if use_crf
                  then
                    let sequence_lengths := ReduceSum mask 1 in
                    y_ph <~ getattr_tensor "_y_ph" ;;
                    let log_likelihood :=
                      CrfLogLikelihood logits y_ph sequence_lengths in
                    let transition_params := CrfTransitionParams logits in
                    ret (Neg log_likelihood)
                  else
                    y_ph <~ getattr_tensor "_y_ph" ;;
                    let ground_truth_labels := OneHot y_ph n_tags in
                    let loss_tensor :=
                      SoftmaxCrossEntropyWithLogits ground_truth_labels logits in
                    ret (Mul loss_tensor mask)) ;;
  let loss := ReduceMean loss_tensor in
  total_loss <~ (if Qpositive l2_reg
                 then
                   penalties <~ tf_get_collection_regularization_losses ;;
                   ret (Add loss (Mul (Const l2_reg) (ReduceMean (Pack penalties))))
                 else ret loss) ;;
  learning_rate_ph <~ getattr_tensor "learning_rate_ph" ;;
  train_op <~ call (get_train_op env total_loss learning_rate_ph clip_grad_norm) ;;
  ret [train_op; VTensor loss].

(** Lines 44 to 67 of [__init__]: the input features.  The value is
    [mask_ph]. *)
Definition build_input_features (cfg : config) : M tensor :=
  exec _build_training_placeholders ;;
  exec setattr "_xs_placeholders" (VTensorList []) ;;
  exec setattr "_y_ph" (VTensor (tf_placeholder tf_int32 [None; None] (Some "y_ph"))) ;;
  exec setattr "_input_features" (VTensorList []) ;;
  exec _build_word_embeddings (token_emb_mat cfg) (embeddings_dropout cfg) ;;
  mask_ph <~ _build_mask ;;
  exec (match char_emb_dim cfg with
        | Some _ => _build_char_embeddings (char_emb_mat cfg) (embeddings_dropout cfg)
        | None => ret tt
        end) ;;
  exec (match capitalization_dim cfg with
        | Some d => _build_capitalization d
        | None => ret tt
        end) ;;
  exec (match pos_features_dim cfg with
        | Some d => _build_pos d
        | None => ret tt
        end) ;;
  ret mask_ph.

(** Line 69: [features = tf.concat(self._input_features)]. *)
Definition aggregate_features : M tensor :=
  v <~ getattr "_input_features" ;;
  match v with
  | VTensorList l => call (tf_concat l None)
  | _ => raise (TypeError "Expected list for 'values' argument")
  end.

(** The local variable [units] of [__init__] after the branch on
    [net_type]: not bound at all, or bound to what the builder returned
    ([None] is Python's None). *)
Definition encoder_units (cfg : config) (features : tensor)
  : M (option (option tensor)) :=
  if String.eqb (net_type cfg) "rnn"
  then
    if use_cudnn_rnn cfg
    then
      if Qpositive (l2_reg cfg)
      then raise (Warning "cuDNN RNN are not l2 regularizable")
      else
        u <~ _build_cudnn_rnn features (n_hidden_list cfg) (cell_type cfg)
               (intra_layer_dropout cfg) ;;
        ret (Some u)
    else
      u <~ _build_rnn features (n_hidden_list cfg) (cell_type cfg)
             (intra_layer_dropout cfg) ;;
      ret (Some (Some u))
  else if String.eqb (net_type cfg) "cnn"
  then
    u <~ _build_cnn features (n_hidden_list cfg) (cnn_filter_width cfg)
           (use_batch_norm cfg) ;;
    ret (Some (Some u))
  else ret None.

(** Lines 71 to 95 of [__init__]: the network, the training operation
    and the session. *)
Definition build_network (cfg : config) (features mask_ph : tensor) : M unit :=
  units <~ encoder_units cfg features ;;
  units <~ (match units with
            | None => raise (UnboundLocalError "units")
            | Some u => ret u
            end) ;;
  n_hidden <~ call (last_item (n_hidden_list cfg)) ;;
  (* [units] is None only for an empty [n_hidden_list], on which the line
     above has raised. *)
  units <~ (match units with
            | Some u => ret u
            | None => raise (TypeError "NoneType is not a tensor")
            end) ;;
  logits <~ _build_top units (n_tags cfg) n_hidden (top_dropout cfg)
              (two_dense_on_top cfg) ;;
  result <~ _build_train_predict logits mask_ph (n_tags cfg) (use_crf cfg)
              (clip_grad_norm cfg) (l2_reg cfg) ;;
  names <~ call (unpack3 result) ;;
  let '(train_op, loss, predict_method) := names in
  exec setattr "train_op" train_op ;;
  exec setattr "loss" loss ;;
  exec setattr "predict" predict_method ;;
  let visible_device_list :=
    match gpu cfg with
    | Some g => Some (str g)
    | None => None
    end in
  sess <~ call (tf_Session env visible_device_list) ;;
  setattr "sess" sess.

Definition __init__ (cfg : config) : M unit :=
  mask_ph <~ build_input_features cfg ;;
  features <~ aggregate_features ;;
  build_network cfg features mask_ph.

(** Truth value of an attribute in an [if]. *)
Definition truthy (v : pyval) : exn + bool :=
  match v with
  | VNone => inr false
  | VBool b => inr b
  | VTensor _ => inl (TypeError "Using a tf.Tensor as a Python bool is not allowed")
  | VTensorList l => inr (negb (Nat.eqb (length l) 0))
  | VSeqs l => inr (negb (Nat.eqb (length l) 0))
  | VArray _ => inl (ValueError "The truth value of an array is ambiguous")
  | _ => inr true
  end.

(** [tf.contrib.crf.viterbi_decode(logit, trans_params)] on fetched
    arrays. *)
Definition viterbi_decode_arrays (logit : ndarray Q) (trans_params : pyval)
  : exn + (list nat * Q) :=
  match nd_matrix logit, trans_params with
  | Some score, VArray t =>
      match nd_matrix t with
      | Some transition_params => viterbi_decode score transition_params
      | None => inl (ValueError "operands could not be broadcast together")
      end
  | _, _ => inl (ValueError "operands could not be broadcast together")
  end.

(** The body of the loop over the sentences in [predict_no_crf]. *)
Definition crf_decode_body (trans_params : pyval) (item : ndarray Q * ndarray Q)
    (y_pred : list (list nat)) : M (ctl (list (list nat)) (list (list nat))) :=
  let '(logit, sequence_length) := item in
  k <~ call (py_int sequence_length) ;;
  logit <~ call (nd_slice_to k logit) ;;
  decoded <~ call (viterbi_decode_arrays logit trans_params) ;;
  let '(viterbi_seq, viterbi_score) := decoded in
  ret (Next (y_pred ++ [viterbi_seq])).

(** Lines 200 to 204: the loop over [zip(logits, sequence_lengths)],
    from an empty [y_pred]. *)
Definition decode_sentences (logits trans_params sequence_lengths : pyval)
  : M (list (list nat)) :=
  logit_items <~ call (iter_array logits) ;;
  length_items <~ call (iter_array sequence_lengths) ;;
  c <~ for_each (combine logit_items length_items)
         (crf_decode_body trans_params) [] ;;
  match c with
  | Next y_pred => ret y_pred
  | Return y_pred => ret y_pred
  end.

Definition predict_no_crf (args : list pyval) : M pyval :=
  xs <~ getattr "_xs_placeholders" ;;
  placeholders <~ (match xs with
                   | VTensorList l => ret l
                   | _ => raise (TypeError "zip argument #1 must support iteration")
                   end) ;;
  let feed_dict := combine placeholders args in
  use_crf <~ getattr "_use_crf" ;;
  crf <~ call (truthy use_crf) ;;
  if crf : bool
  then
    sess <~ getattr "_sess" ;;
    logits <~ getattr "_logits" ;;
    transition_params <~ getattr "_transition_params" ;;
    sequence_lengths <~ getattr "_sequence_lengths" ;;
    fetched <~ call (session_run env sess
                       [logits; transition_params; sequence_lengths] feed_dict) ;;
    names <~ call (unpack3 fetched) ;;
    let '(logits, trans_params, sequence_lengths) := names in
    y_pred <~ decode_sentences logits trans_params sequence_lengths ;;
    ret (VSeqs y_pred)
  else
    sess <~ getattr "_sess" ;;
    y_pred <~ getattr "_y_pred" ;;
    call (session_run_one env sess y_pred feed_dict).

(** The four methods whose body is [pass]. *)
Definition __call__ (args : list pyval) : M pyval := ret VNone.

Definition train_on_batch (x y : list pyval) : M pyval := ret VNone.

Definition save (args : list pyval) : M pyval := ret VNone.

Definition load (args : list pyval) : M pyval := ret VNone.

End NerNetwork.

(** ** Graph semantics *)

(** *** Static width of the last axis *)

Fixpoint last_dim (t : tensor) : option Z :=
  match t with
  | Placeholder _ shp _ => List.last shp None
  | Opaque _ _ width => width
  | LayersDropout inputs _ _ _ => last_dim inputs
  | Concat values axis =>
      if (axis =? -1)%Z
      then fold_right (fun v acc =>
                         match last_dim v, acc with
                         | Some a, Some b => Some (a + b)%Z
                         | _, _ => None
                         end) (Some 0%Z) values
      else None
  | Dense _ units _ => Some units
  | _ => None
  end.

(** The recurrent layers a tensor went through, innermost first: the
    names that the collaborators give their outputs, read back from the
    forward half of each concatenation. *)
Fixpoint layers_of (t : tensor) : list (string * option Z) :=
  match t with
  | Concat [Opaque name [input] width; _] _ => layers_of input ++ [(name, width)]
  | Opaque _ [input; _] _ => layers_of input
  | _ => []
  end.

(** *** The dropout mask *)

(** One entry of a [noise_shape] list, given the run-time shape of the
    tensors it mentions. *)
Definition dim_value (shape_of : tensor -> option (list nat)) (d : tensor)
  : option nat :=
  match d with
  | ConstInt z => Some (Z.to_nat z)
  | ShapeAt t axis =>
      match shape_of t with
      | Some shp => nth_error shp axis
      | None => None
      end
  | _ => None
  end.

Definition noise_shape_value (shape_of : tensor -> option (list nat))
    (noise_shape : list tensor) : option (list nat) :=
  fold_right (fun d acc =>
                match dim_value shape_of d, acc with
                | Some n, Some r => Some (n :: r)
                | _, _ => None
                end) (Some []) noise_shape.

(** Dropout draws one keep-or-drop bit per index of [noise_shape] and
    broadcasts it: along an axis of extent 1 every index reads bit 0. *)
Fixpoint broadcast_index (noise_shape idx : list nat) : list nat :=
  match noise_shape, idx with
  | n :: ns, i :: ix => (if (n =? 1)%nat then 0%nat else i) :: broadcast_index ns ix
  | _, _ => []
  end.

Definition keep_mask (noise_shape : list nat) (noise : list nat -> bool)
    (idx : list nat) : bool :=
  noise (broadcast_index noise_shape idx).

(** *** Numeric value of the loss head *)

Inductive value : Type :=
| FloatArr (a : ndarray R)
| IntArr (a : ndarray Z).

Definition scalar (r : R) : value := FloatArr (mk_nd [] [r]).

Definition Rsum (l : list R) : R := fold_right Rplus 0%R l.

(** [tf.one_hot(indices, depth)]: an index outside [0, depth) gives a
    row of zeros. *)
Definition one_hot_row (depth : nat) (k : Z) : list R :=
  List.map (fun i => if (Z.of_nat i =? k)%Z then 1%R else 0%R) (seq 0 depth).

Definition one_hot (depth : Z) (a : ndarray Z) : ndarray R :=
  mk_nd (nd_shape a ++ [Z.to_nat depth])
        (flat_map (one_hot_row (Z.to_nat depth)) (nd_data a)).

(** Cross-entropy of one position: the sum over the tags of
    [label * (log(sum(exp(logits))) - logit)]. *)
Definition softmax_xent_row (labels logits : list R) : R :=
  let lse := ln (Rsum (List.map exp logits)) in
  Rsum (List.map (fun p => (fst p * (lse - snd p))%R) (combine labels logits)).

(** [tf.nn.softmax_cross_entropy_with_logits]: over the last axis, for
    operands of one shape. *)
Definition softmax_cross_entropy_with_logits (labels logits : ndarray R)
  : option (ndarray R) :=
  if decide (nd_shape labels = nd_shape logits)
  then
    match List.rev (nd_shape logits) with
    | [] => None
    | T :: outer =>
        let n := size_of (List.rev outer) in
        Some (mk_nd (List.rev outer)
                (List.map (fun p => softmax_xent_row (fst p) (snd p))
                   (combine (chunks n T (nd_data labels))
                            (chunks n T (nd_data logits)))))
    end
  else None.

(** An elementwise operation on operands of one shape (the graphs built
    here need no broadcasting). *)
Definition elementwise (f : R -> R -> R) (a b : ndarray R) : option (ndarray R) :=
  if decide (nd_shape a = nd_shape b)
  then Some (mk_nd (nd_shape a)
               (List.map (fun p => f (fst p) (snd p)) (combine (nd_data a) (nd_data b))))
  else None.

(** [tf.reduce_mean] over all axes; the mean of no item is not a number. *)
Definition reduce_mean (a : ndarray R) : option (ndarray R) :=
  match nd_data a with
  | [] => None
  | _ => Some (mk_nd [] [(Rsum (nd_data a) / INR (length (nd_data a)))%R])
  end.

(** A Python list of tensors of one shape, stacked. *)
Definition pack (l : list (ndarray R)) : option (ndarray R) :=
  match l with
  | [] => Some (mk_nd [0%nat] [])
  | a :: _ =>
      if forallb (fun b => bool_decide (nd_shape b = nd_shape a)) l
      then Some (mk_nd (length l :: nd_shape a) (flat_map nd_data l))
      else None
  end.

(** The value of a tensor of the loss head.  The operations of the head
    are computed; every other node (placeholders, the outputs of the
    layers below) takes its value from [input]. *)
Fixpoint eval (input : tensor -> option value) (t : tensor) : option value :=
  match t with
  | Const q => Some (scalar (Q2R q))
  | ConstInt z => Some (IntArr (mk_nd [] [z]))
  | Neg a =>
      match eval input a with
      | Some (FloatArr x) =>
          Some (FloatArr (mk_nd (nd_shape x) (List.map Ropp (nd_data x))))
      | _ => None
      end
  | OneHot indices depth =>
      match eval input indices with
      | Some (IntArr x) => Some (FloatArr (one_hot depth x))
      | _ => None
      end
  | SoftmaxCrossEntropyWithLogits labels logits =>
      match eval input labels, eval input logits with
      | Some (FloatArr p), Some (FloatArr z) =>
          FloatArr <$> softmax_cross_entropy_with_logits p z
      | _, _ => None
      end
  | Mul a b =>
      match eval input a, eval input b with
      | Some (FloatArr x), Some (FloatArr y) => FloatArr <$> elementwise Rmult x y
      | _, _ => None
      end
  | Add a b =>
      match eval input a, eval input b with
      | Some (FloatArr x), Some (FloatArr y) => FloatArr <$> elementwise Rplus x y
      | _, _ => None
      end
  | Pack values =>
      match fold_right (fun v acc =>
                          match eval input v, acc with
                          | Some (FloatArr x), Some r => Some (x :: r)
                          | _, _ => None
                          end) (Some []) values with
      | Some arrays => FloatArr <$> pack arrays
      | None => None
      end
  | ReduceMean a =>
      match eval input a with
      | Some (FloatArr x) => FloatArr <$> reduce_mean x
      | _ => None
      end
  | _ => input t
  end.

(** ** A reference behaviour of the collaborators *)

(** Modelled from the spec: the layers of deeppavlov.core.layers.tf_layers,
    TFModel.get_train_op and check_gpu_existance are not in this file's
    source.  Each layer returns an output of the width the spec gives it:
    an embedding has the width of its matrix, a recurrent layer returns a
    forward and a backward output of width [n_hidden] each, dropout keeps
    the width, the convolutional stack ends with the last entry of
    [n_hidden_list]; a recurrent cell other than lstm or gru is refused.
    [gpu_present] is the answer of check_gpu_existance and [engine] is the
    numeric engine behind the session. *)
Definition reference (gpu_present : bool)
    (engine : list pyval -> list (tensor * pyval) -> exn + list pyval)
  : collaborators := {|
  check_gpu_existance := gpu_present;
  embedding_layer := fun ids mat =>
    inr (Opaque "embedding_layer" [ids] (snd <$> mat));
  character_embedding_network :=
    inr (Opaque "character_embedding_network" [] None);
  variational_dropout := fun units keep =>
    inr (Opaque "variational_dropout" [units; keep] (last_dim units));
  cudnn_bi_lstm := fun scope units n =>
    inr ((Opaque (scope ++ "/cudnn_lstm_fw") [units] (Some n),
          Opaque (scope ++ "/cudnn_lstm_bw") [units] (Some n)), VNone);
  cudnn_bi_gru := fun scope units n =>
    inr ((Opaque (scope ++ "/cudnn_gru_fw") [units] (Some n),
          Opaque (scope ++ "/cudnn_gru_bw") [units] (Some n)), VNone);
  bi_rnn := fun units n cell name =>
    if String.eqb cell "lstm" || String.eqb cell "gru"
    then inr ((Opaque (name ++ "/" ++ cell ++ "_fw") [units] (Some n),
               Opaque (name ++ "/" ++ cell ++ "_bw") [units] (Some n)), VNone)
    else inl (RuntimeError "cell_type must be either gru or lstm");
  stacked_cnn := fun units n_hidden_list width use_batch_norm training =>
    inr (Opaque "stacked_cnn" [units; training] (List.last (Some <$> n_hidden_list) None));
  get_train_op := fun total_loss learning_rate clip_norm =>
    inr (VTrainOp total_loss learning_rate clip_norm);
  inherited := ∅;
  tf_Session := fun visible => inr (VSession visible);
  session_run := fun _ fetches feed_dict => engine fetches feed_dict;
  session_run_one := fun _ fetch feed_dict =>
    match engine [fetch] feed_dict with
    | inr [v] => inr v
    | inr _ => inl (RuntimeError "the engine returned a wrong number of values")
    | inl e => inl e
    end
|}.

(** An engine that is never asked anything. *)
Definition no_engine (fetches : list pyval) (feed_dict : list (tensor * pyval))
  : exn + list pyval := inl (RuntimeError "no session").

(** ** Statements: the spec's side, the states of an instance, and sample data *)

Definition token_indices_ph : tensor := Placeholder tf_int32 [None; None] None.
Definition mask_placeholder : tensor :=
  Placeholder tf_float32 [None; None] (Some "Mask_ph").
Definition char_placeholder : tensor :=
  Placeholder tf_int32 [None; None; None] (Some "Char_ph").

(** The placeholders of the capitalization and POS features that a
    configuration switches on. *)
Definition flag_placeholders (cfg : config) : list tensor :=
  match capitalization_dim cfg with
  | Some d => [Placeholder tf_int32 [None; None; Some d] (Some "Capitalization_ph")]
  | None => []
  end ++
  match pos_features_dim cfg with
  | Some d => [Placeholder tf_int32 [None; None; Some d] (Some "POS_ph")]
  | None => []
  end.

(** [self._xs_placeholders] and [self._input_features] hold these lists. *)
Definition features_state (st : state) (xs fs : list tensor) : Prop :=
  self_dict st !! "_xs_placeholders" = Some (VTensorList xs) /\
  self_dict st !! "_input_features" = Some (VTensorList fs).

(** The loss the spec describes for each mode, over the gold-label
    placeholder [y_ph]. *)
Definition spec_base_loss (use_crf : bool) (logits y_ph mask : tensor) (n_tags : Z)
  : tensor :=
  if use_crf
  then ReduceMean (Neg (CrfLogLikelihood logits y_ph (ReduceSum mask 1)))
  else ReduceMean (Mul (SoftmaxCrossEntropyWithLogits (OneHot y_ph n_tags) logits) mask).

(** The loss the spec hands to the optimizer. *)
Definition spec_total_loss (l2_reg : Q) (loss : tensor) (penalties : list tensor)
  : tensor :=
  if Qpositive l2_reg
  then Add loss (Mul (Const l2_reg) (ReduceMean (Pack penalties)))
  else loss.

Definition concat_type_error : exn :=
  TypeError "concat() missing 1 required positional argument: 'axis'".

Definition unpack_value_error : exn :=
  ValueError "not enough values to unpack (expected 3, got 2)".

Definition features_100 : tensor := Opaque "features" [] (Some 100%Z).

(** The defaults of the constructor for three tags, with the settings
    of the encoder and of the decoder changed. *)
Definition configure (net cell : string) (cudnn : bool) (l2 : Q) (crf : bool)
  : config := {|
  n_tags := 3;
  char_emb_dim := None;
  capitalization_dim := None;
  pos_features_dim := None;
  net_type := net;
  cell_type := cell;
  use_cudnn_rnn := cudnn;
  two_dense_on_top := false;
  n_hidden_list := [128%Z];
  cnn_filter_width := 7;
  use_crf := crf;
  token_emb_mat := None;
  char_emb_mat := None;
  use_batch_norm := false;
  embeddings_dropout := false;
  top_dropout := false;
  intra_layer_dropout := false;
  l2_reg := l2;
  clip_grad_norm := 5;
  gpu := None
|}.

(** Every attribute name that some method of the class assigns. *)
Definition assigned_names : gset string :=
  list_to_set ["learning_rate_ph"; "_dropout_ph"; "training_ph"; "_xs_placeholders";
               "_y_ph"; "_input_features"; "train_op"; "loss"; "predict"; "sess"].

(** The attribute names that [predict_no_crf] reads. *)
Definition names_read_by_predict : list string :=
  ["_xs_placeholders"; "_use_crf"; "_sess"; "_logits"; "_transition_params";
   "_sequence_lengths"; "_y_pred"].

(** One call of a method of the class on an instance. *)
Inductive invocation : Type :=
| Call_init (cfg : config)
| Call_build_training_placeholders
| Call_build_word_embeddings (token_emb_mat : option (Z * Z)) (embeddings_dropout : bool)
| Call_build_mask
| Call_build_char_embeddings (char_emb_mat : option (Z * Z)) (embeddings_dropout : bool)
| Call_build_capitalization (capitalization_dim : Z)
| Call_build_pos (pos_features_dim : Z)
| Call_build_cudnn_rnn (units : tensor) (n_hidden_list : list Z) (cell_type : string)
    (intra_layer_dropout : bool)
| Call_build_rnn (units : tensor) (n_hidden_list : list Z) (cell_type : string)
    (intra_layer_dropout : bool)
| Call_build_cnn (units : tensor) (n_hidden_list : list Z) (cnn_filter_width : Z)
    (use_batch_norm : bool)
| Call_build_top (units : tensor) (n_tags n_hididden : Z)
    (top_dropout two_dense_on_top : bool)
| Call_build_train_predict (logits mask : tensor) (n_tags : Z) (use_crf : bool)
    (clip_grad_norm l2_reg : Q)
| Call_predict_no_crf (args : list pyval)
| Call_call (args : list pyval)
| Call_train_on_batch (x y : list pyval)
| Call_save (args : list pyval)
| Call_load (args : list pyval).

(** The state a call leaves behind, whether it returned or raised. *)
Definition invoke (env : collaborators) (i : invocation) (st : state) : state :=
  match i with
  | Call_init cfg => fst (run (__init__ env cfg) st)
  | Call_build_training_placeholders => fst (run _build_training_placeholders st)
  | Call_build_word_embeddings m d => fst (run (_build_word_embeddings env m d) st)
  | Call_build_mask => fst (run (_build_mask env) st)
  | Call_build_char_embeddings m d => fst (run (_build_char_embeddings env m d) st)
  | Call_build_capitalization d => fst (run (_build_capitalization env d) st)
  | Call_build_pos d => fst (run (_build_pos env d) st)
  | Call_build_cudnn_rnn u hs c d => fst (run (_build_cudnn_rnn env u hs c d) st)
  | Call_build_rnn u hs c d => fst (run (_build_rnn env u hs c d) st)
  | Call_build_cnn u hs w b => fst (run (_build_cnn env u hs w b) st)
  | Call_build_top u n h d t => fst (run (_build_top env u n h d t) st)
  | Call_build_train_predict l m n c g r =>
      fst (run (_build_train_predict env l m n c g r) st)
  | Call_predict_no_crf args => fst (run (predict_no_crf env args) st)
  | Call_call args => fst (run (__call__ args) st)
  | Call_train_on_batch x y => fst (run (train_on_batch x y) st)
  | Call_save args => fst (run (save args) st)
  | Call_load args => fst (run (load args) st)
  end.

(** The states of an instance: a new object has no attribute of its own
    (the graph may already hold penalties), and every call of a method
    leads from a state to a state. *)
Inductive reachable (env : collaborators) : state -> Prop :=
| reachable_new (penalties : list tensor) :
    reachable env {| self_dict := ∅; regularization_losses := penalties |}
| reachable_call (i : invocation) (st : state) :
    reachable env st -> reachable env (invoke env i st).

(** The invariant of the attribute dictionary. *)
Definition instance_inv (st : state) : Prop :=
  dom (self_dict st) ⊆ assigned_names /\
  forall v, self_dict st !! "_xs_placeholders" = Some v -> exists l, v = VTensorList l.

(** A computation that keeps the invariant, raising or not. *)
Definition preserves {A} (m : M A) : Prop :=
  forall st, instance_inv st -> instance_inv (fst (run m st)).

(** A partially built instance: the state in which the constructor, run
    with the defaults for three tags, leaves the object it was given. *)
Definition abandoned_instance : state :=
  fst (run (__init__ (reference true no_engine) (default_config 3)) initial_state).

(** A batch of two sentences padded to four positions, three tags, with
    lengths 3 and 2. *)
Definition example_logits : ndarray Q :=
  mk_nd [2; 4; 3]%nat
    [1; 0; 0;  0; 2; 0;  0; 0; 3;  0; 0; 0;
     0; 1; 0;  5; 0; 0;  0; 0; 0;  0; 0; 0]%Q.

Definition example_transitions : ndarray Q :=
  mk_nd [3; 3]%nat [0; 1; 0;  0; 0; 1;  1; 0; 0]%Q.

Definition example_lengths : ndarray Q := mk_nd [2]%nat [3; 2]%Q.

Definition example_tokens : ndarray Q :=
  mk_nd [2; 4]%nat [7; 8; 9; 0;  4; 5; 0; 0]%Q.

Definition example_mask : ndarray Q :=
  mk_nd [2; 4]%nat [1; 1; 1; 0;  1; 1; 0; 0]%Q.

(** The instance that the constructor leaves behind when asked for CRF
    mode. *)
Definition abandoned_crf_instance : state :=
  fst (run (__init__ (reference true no_engine) (configure "rnn" "lstm" false 0 true))
         initial_state).

(** The token-embedding feature that the builders leave in
    [self._input_features]. *)
Definition embedding_feature (env : collaborators) (cfg : config) (st : state)
  : option tensor :=
  match run (build_input_features env cfg) st with
  | (st', inr _) =>
      match self_dict st' !! "_input_features" with
      | Some (VTensorList (emb :: _)) => Some emb
      | _ => None
      end
  | _ => None
  end.

(** The configuration with dropout on the embeddings and a token matrix
    of 1000 rows and 4 columns. *)
Definition dropout_config : config := {|
  n_tags := 3;
  char_emb_dim := None;
  capitalization_dim := None;
  pos_features_dim := None;
  net_type := "rnn";
  cell_type := "lstm";
  use_cudnn_rnn := false;
  two_dense_on_top := false;
  n_hidden_list := [128%Z];
  cnn_filter_width := 7;
  use_crf := false;
  token_emb_mat := Some (1000, 4)%Z;
  char_emb_mat := None;
  use_batch_norm := false;
  embeddings_dropout := true;
  top_dropout := false;
  intra_layer_dropout := false;
  l2_reg := 0;
  clip_grad_norm := 5;
  gpu := None
|}.

Definition dropout_feature : tensor :=
  let emb0 := Opaque "embedding_layer" [token_indices_ph] (Some 4%Z) in
  LayersDropout emb0 (PlaceholderWithDefault 1 "dropout")
    [ShapeAt emb0 0; ConstInt 1; ShapeAt emb0 2] false.

(** A draw that keeps channel 0 and drops every other channel. *)
Definition keep_first_channel (idx : list nat) : bool :=
  match idx with
  | [_; _; O] => true
  | _ => false
  end.





Definition logits_node : tensor := Opaque "logits" [] (Some 3%Z).

Definition y_placeholder : tensor := Placeholder tf_int32 [None; None] (Some "y_ph").

Definition learning_rate_placeholder : tensor :=
  Placeholder tf_float32 [] (Some "learning_rate").


Definition example_softmax_loss : tensor :=
  ReduceMean
    (Mul (SoftmaxCrossEntropyWithLogits (OneHot y_placeholder 3) logits_node)
       mask_placeholder).

(** An instance on which the output head has been built with two dense
    layers: the graph holds their two penalties. *)
Definition regularised_instance : state :=
  fst (run (_build_top (reference true no_engine) features_100 3 128 false true)
         abandoned_instance).

Definition crf_loss : tensor :=
  ReduceMean (Neg (CrfLogLikelihood logits_node y_placeholder
                     (ReduceSum mask_placeholder 1))).

Definition regularised_total : tensor :=
  Add crf_loss
    (Mul (Const (1 # 2))
       (ReduceMean (Pack (regularization_losses regularised_instance)))).

(** Log-likelihoods of -3 and -5 for the two sentences, penalties 2 and
    6 for the two dense layers. *)
Definition crf_input (t : tensor) : option value :=
  match t with
  | CrfLogLikelihood _ _ _ => Some (FloatArr (mk_nd [2]%nat [-3; -5]%R))
  | L2LossKernel (Dense _ _ (Some _)) => Some (scalar 2)
  | L2LossKernel (Dense _ _ None) => Some (scalar 6)
  | _ => None
  end.

(** ** Further statements *)

(** A computation that leaves the whole state as it found it, raising or
    not. *)
Definition read_only {A} (m : M A) : Prop :=
  forall st, fst (run m st) = st.

(** A computation that keeps a property of the state, raising or not. *)
Definition keeps (P : state -> Prop) {A} (m : M A) : Prop :=
  forall st, P st -> P (fst (run m st)).

(** The attribute names that the feature builders assign. *)
Definition feature_names : gset string :=
  list_to_set ["learning_rate_ph"; "_dropout_ph"; "training_ph"; "_xs_placeholders";
               "_y_ph"; "_input_features"].

(** The instance holds no attribute beyond those of the feature
    builders. *)
Definition only_feature_names (st : state) : Prop :=
  dom (self_dict st) ⊆ feature_names.

(** The penalties that [_build_top] adds for an input [u] of the dense
    layers. *)
Definition top_penalties (u : tensor) (n_tags n_hididden : Z) (two_dense_on_top : bool)
  : list tensor :=
  if two_dense_on_top
  then [L2LossKernel (Dense u n_hididden (Some tf_nn_relu));
        L2LossKernel (Dense (Dense u n_hididden (Some tf_nn_relu)) n_tags None)]
  else [L2LossKernel (Dense u n_tags None)].

(** A new object, before any method has run. *)
Definition new_object : state := initial_state.




Definition empty_score_error : exn :=
  IndexError "index 0 is out of bounds for axis 0 with size 0".

(** The fetched arrays of a batch: scores [B, L, T], transitions [T, T]
    and lengths [B], each with as many items as its shape says. *)
Definition fetched_shapes (B L T : nat) (zs ts ks : list Q) : Prop :=
  (1 <= T)%nat /\ length zs = (B * (L * T))%nat /\ length ts = (T * T)%nat /\
  length ks = B.

(** The decoding loop on such arrays. *)
Definition decode_batch (B L T : nat) (zs ts ks : list Q) : M (list (list nat)) :=
  decode_sentences (VArray (mk_nd [B; L; T] zs)) (VArray (mk_nd [T; T] ts))
    (VArray (mk_nd [B] ks)).

(** Lengths 3 and 7 for two sentences padded to four positions. *)
Definition long_lengths : list Q := [3; 7]%Q.

(** Lengths 3 and 0: the second sentence is all padding. *)
Definition padded_out_lengths : list Q := [3; 0]%Q.



Definition crf_log_likelihood_node : tensor :=
  CrfLogLikelihood logits_node y_placeholder (ReduceSum mask_placeholder 1).

(** The configuration of the defaults with both feature flags off and a
    token matrix of 1000 rows and 4 columns. *)
Definition plain_config : config := {|
  n_tags := 3;
  char_emb_dim := Some 32%Z;
  capitalization_dim := None;
  pos_features_dim := None;
  net_type := "rnn";
  cell_type := "lstm";
  use_cudnn_rnn := false;
  two_dense_on_top := false;
  n_hidden_list := [128%Z];
  cnn_filter_width := 7;
  use_crf := false;
  token_emb_mat := Some (1000, 4)%Z;
  char_emb_mat := None;
  use_batch_norm := false;
  embeddings_dropout := false;
  top_dropout := false;
  intra_layer_dropout := false;
  l2_reg := 0;
  clip_grad_norm := 5;
  gpu := None
|}.


(** The state the feature builders leave for [plain_config]. *)
Definition plain_instance : state :=
  fst (run (build_input_features (reference true no_engine) plain_config) new_object).

(** * Properties *)

(** ** The monad *)

Lemma run_ret {A} (a : A) st : run (ret a) st = (st, inr a).
Proof. reflexivity. Qed.

Lemma run_raise {A} (e : exn) st : run (raise (A := A) e) st = (st, inl e).
Proof. reflexivity. Qed.

Lemma run_call {A} (r : exn + A) st : run (call r) st = (st, r).
Proof. reflexivity. Qed.

Lemma run_bind {A B} (m : M A) (k : A -> M B) st :
  run (bind m k) st =
  match run m st with
  | (st', inl e) => (st', inl e)
  | (st', inr a) => run (k a) st'
  end.
Proof. reflexivity. Qed.

Lemma run_bind_ok {A B} (m : M A) (k : A -> M B) st st' a :
  run m st = (st', inr a) -> run (bind m k) st = run (k a) st'.
Proof. intros H. rewrite run_bind, H. reflexivity. Qed.

Lemma run_setattr name v st : run (setattr name v) st = (set_attr st name v, inr tt).
Proof. reflexivity. Qed.

Lemma lookup_set_attr st name v name' :
  self_dict (set_attr st name v) !! name' =
  if decide (name = name') then Some v else self_dict st !! name'.
Proof. unfold set_attr; simpl. apply lookup_insert. Qed.

Lemma run_getattr_own env name v st :
  self_dict st !! name = Some v -> run (getattr env name) st = (st, inr v).
Proof. intros H. unfold run, getattr. rewrite H. reflexivity. Qed.

Lemma run_attr_append env name l t st :
  self_dict st !! name = Some (VTensorList l) ->
  run (attr_append env name t) st = (set_attr st name (VTensorList (l ++ [t])), inr tt).
Proof.
  intros H. unfold attr_append.
  rewrite (run_bind_ok _ _ _ _ _ (run_getattr_own env _ _ _ H)). reflexivity.
Qed.

(** ** The input features *)

(** Steps through one [bind] of a run known to have returned. *)
Tactic Notation "step" hyp(H) "as" ident(st) ident(a) ident(E) :=
  rewrite run_bind in H;
  lazymatch type of H with
  | context [run ?m ?s] =>
      destruct (run m s) as [st [? | a]] eqn:E; [discriminate H |]
  end.

Lemma build_char_embeddings_state env mat dropout st :
  fst (run (_build_char_embeddings env mat dropout) st) = st.
Proof.
  unfold _build_char_embeddings. rewrite run_bind, run_call.
  destruct (character_embedding_network env); reflexivity.
Qed.

Lemma getattr_state env name st : fst (run (getattr env name) st) = st.
Proof.
  unfold run, getattr.
  destruct (self_dict st !! name); [reflexivity |].
  destruct (inherited env !! name); reflexivity.
Qed.

Lemma getattr_tensor_state env name st : fst (run (getattr_tensor env name) st) = st.
Proof.
  unfold getattr_tensor. rewrite run_bind.
  pose proof (getattr_state env name st) as H.
  destruct (run (getattr env name) st) as [st1 [e | v]]; simpl in H; subst;
    [reflexivity |].
  destruct v; reflexivity.
Qed.

Lemma build_word_embeddings_spec env mat dropout st st' xs fs :
  self_dict st !! "_xs_placeholders" = Some (VTensorList xs) ->
  self_dict st !! "_input_features" = Some (VTensorList fs) ->
  run (_build_word_embeddings env mat dropout) st = (st', inr tt) ->
  exists emb0 emb,
    embedding_layer env token_indices_ph mat = inr emb0 /\
    (if dropout
     then exists rate,
         emb = LayersDropout emb0 rate [ShapeAt emb0 0; ConstInt 1; ShapeAt emb0 2] false
     else emb = emb0) /\
    st' = set_attr (set_attr st "_xs_placeholders" (VTensorList (xs ++ [token_indices_ph])))
            "_input_features" (VTensorList (fs ++ [emb])).
Proof.
  intros Hxs Hfs H. unfold _build_word_embeddings in H.
  step H as st1 emb0 E1. rewrite run_call in E1. inversion E1; subst st1; clear E1.
  step H as st2 emb E2.
  assert (Hemb : st2 = st /\
                 if dropout
                 then exists rate,
                     emb = LayersDropout emb0 rate [ShapeAt emb0 0; ConstInt 1; ShapeAt emb0 2] false
                 else emb = emb0).
  { destruct dropout.
    - step E2 as st3 rate E3.
      pose proof (getattr_tensor_state env "_dropout_ph" st) as Hst.
      rewrite E3 in Hst; simpl in Hst; subst st3.
      rewrite run_ret in E2. inversion E2; subst. split; [reflexivity | eauto].
    - rewrite run_ret in E2. inversion E2; subst. split; reflexivity. }
  destruct Hemb as [-> Hemb].
  rewrite (run_bind_ok _ _ _ _ _ (run_attr_append env _ _ _ _ Hxs)) in H.
  rewrite (run_attr_append env "_input_features" fs) in H.
  - inversion H; subst. exists emb0, emb. auto.
  - rewrite lookup_set_attr. rewrite decide_False by discriminate. exact Hfs.
Qed.

Lemma features_state_set st xs fs :
  features_state
    (set_attr (set_attr st "_xs_placeholders" (VTensorList xs))
       "_input_features" (VTensorList fs))
    xs fs.
Proof.
  split; rewrite !lookup_set_attr.
  - rewrite decide_False by discriminate. rewrite decide_True by reflexivity. reflexivity.
  - rewrite decide_True by reflexivity. reflexivity.
Qed.

Lemma build_mask_spec env st xs fs :
  features_state st xs fs ->
  exists st',
    run (_build_mask env) st = (st', inr mask_placeholder) /\
    features_state st' (xs ++ [mask_placeholder]) fs.
Proof.
  intros [Hxs Hfs]. unfold _build_mask.
  rewrite (run_bind_ok _ _ _ _ _ (run_attr_append env _ _ _ _ Hxs)).
  eexists. split; [reflexivity |].
  split; rewrite lookup_set_attr.
  - rewrite decide_True by reflexivity. reflexivity.
  - rewrite decide_False by discriminate. exact Hfs.
Qed.

Lemma build_flag_spec env ph st xs fs :
  features_state st xs fs ->
  exists st',
    run (exec attr_append env "_xs_placeholders" ph ;;
         attr_append env "_input_features" ph) st = (st', inr tt) /\
    features_state st' (xs ++ [ph]) (fs ++ [ph]).
Proof.
  intros [Hxs Hfs].
  rewrite (run_bind_ok _ _ _ _ _ (run_attr_append env _ _ _ _ Hxs)).
  rewrite (run_attr_append env "_input_features" fs).
  - eexists. split; [reflexivity |]. apply features_state_set.
  - rewrite lookup_set_attr, decide_False by discriminate. exact Hfs.
Qed.

Lemma build_char_embeddings_spec env mat dropout st st' r xs fs :
  features_state st xs fs ->
  run (_build_char_embeddings env mat dropout) st = (st', r) ->
  features_state st' xs fs.
Proof.
  intros Hf H. pose proof (build_char_embeddings_state env mat dropout st) as Hs.
  rewrite H in Hs. simpl in Hs. subst. exact Hf.
Qed.

(** What the feature builders leave in [self] when they all return: the
    run-time inputs and the features to aggregate. *)
Lemma build_input_features_spec env cfg st st' mask_ph :
  run (build_input_features env cfg) st = (st', inr mask_ph) ->
  mask_ph = mask_placeholder /\
  exists emb0 emb,
    embedding_layer env token_indices_ph (token_emb_mat cfg) = inr emb0 /\
    (if embeddings_dropout cfg
     then exists rate,
         emb = LayersDropout emb0 rate [ShapeAt emb0 0; ConstInt 1; ShapeAt emb0 2] false
     else emb = emb0) /\
    features_state st'
      (token_indices_ph :: mask_placeholder :: flag_placeholders cfg)
      (emb :: flag_placeholders cfg).
Proof.
  intros H. unfold build_input_features in H.
  step H as s1 u1 E1. unfold _build_training_placeholders in E1.
  repeat (rewrite run_bind, run_setattr in E1). rewrite run_setattr in E1.
  inversion E1; subst s1; clear E1.
  repeat (rewrite run_bind, run_setattr in H).
  step H as s2 u2 E2. destruct u2.
  eapply (build_word_embeddings_spec _ _ _ _ _ [] []) in E2
    as (emb0 & emb & Hl & Hdrop & ->).
  2: { rewrite !lookup_set_attr. repeat (rewrite decide_False by discriminate).
       rewrite decide_True by reflexivity. reflexivity. }
  2: { rewrite !lookup_set_attr. rewrite decide_True by reflexivity. reflexivity. }
  rewrite run_bind in H.
  match type of H with context [run (_build_mask env) ?s] =>
    assert (Hf : features_state s [token_indices_ph] [emb])
      by apply features_state_set
  end.
  destruct (build_mask_spec env _ _ _ Hf) as (s3 & E3 & Hf3).
  rewrite E3 in H. clear E3 Hf.
  step H as s4 u4 E4.
  assert (Hf4 : features_state s4 ([token_indices_ph] ++ [mask_placeholder]) [emb]).
  { destruct (char_emb_dim cfg).
    - eapply build_char_embeddings_spec; eauto.
    - rewrite run_ret in E4. inversion E4; subst. exact Hf3. }
  clear E4 Hf3.
  step H as s5 u5 E5. step H as s6 u6 E6. rewrite run_ret in H.
  inversion H; subst st' mask_ph; clear H.
  split; [reflexivity |]. exists emb0, emb. split; [exact Hl |]. split; [exact Hdrop |].
  unfold flag_placeholders.
  destruct (capitalization_dim cfg) as [c |].
  - unfold _build_capitalization in E5.
    destruct (build_flag_spec env
                (Placeholder tf_int32 [None; None; Some c] (Some "Capitalization_ph"))
                _ _ _ Hf4) as (s5' & E5' & Hf5).
    unfold tf_placeholder in E5. rewrite E5' in E5. inversion E5; subst s5'.
    destruct (pos_features_dim cfg) as [p |].
    + unfold _build_pos in E6.
      destruct (build_flag_spec env
                  (Placeholder tf_int32 [None; None; Some p] (Some "POS_ph"))
                  _ _ _ Hf5) as (s6' & E6' & Hf6).
      unfold tf_placeholder in E6. rewrite E6' in E6. inversion E6; subst s6'.
      exact Hf6.
    + rewrite run_ret in E6. inversion E6; subst. exact Hf5.
  - rewrite run_ret in E5. inversion E5; subst s5.
    destruct (pos_features_dim cfg) as [p |].
    + unfold _build_pos in E6.
      destruct (build_flag_spec env
                  (Placeholder tf_int32 [None; None; Some p] (Some "POS_ph"))
                  _ _ _ Hf4) as (s6' & E6' & Hf6).
      unfold tf_placeholder in E6. rewrite E6' in E6. inversion E6; subst s6'.
      exact Hf6.
    + rewrite run_ret in E6. inversion E6; subst. exact Hf4.
Qed.

(** ** The training head *)

Lemma getattr_tensor_inv env name st st' t :
  run (getattr_tensor env name) st = (st', inr t) ->
  st' = st /\ run (getattr env name) st = (st, inr (VTensor t)).
Proof.
  intros H. pose proof (getattr_tensor_state env name st) as Hs.
  rewrite H in Hs. simpl in Hs. subst st'. split; [reflexivity |].
  unfold getattr_tensor in H. rewrite run_bind in H.
  pose proof (getattr_state env name st) as Hg.
  destruct (run (getattr env name) st) as [s [e | v]]; simpl in Hg; subst s;
    [discriminate H |].
  destruct v; try discriminate H. rewrite run_ret in H. congruence.
Qed.

(** What [_build_train_predict] returns when it returns: a tuple of two,
    the training operation over the total loss and the base loss. *)
Lemma build_train_predict_spec env logits mask n_tags use_crf clip l2 st st' result :
  run (_build_train_predict env logits mask n_tags use_crf clip l2) st
    = (st', inr result) ->
  st' = st /\
  exists y_ph learning_rate train_op,
    run (getattr env "_y_ph") st = (st, inr (VTensor y_ph)) /\
    run (getattr env "learning_rate_ph") st = (st, inr (VTensor learning_rate)) /\
    get_train_op env
      (spec_total_loss l2 (spec_base_loss use_crf logits y_ph mask n_tags)
         (regularization_losses st))
      learning_rate clip = inr train_op /\
    result = [train_op; VTensor (spec_base_loss use_crf logits y_ph mask n_tags)].
Proof.
  intros H. unfold _build_train_predict in H.
  step H as s1 loss_tensor E1.
  assert (Hl : s1 = st /\ exists y_ph,
               run (getattr env "_y_ph") st = (st, inr (VTensor y_ph)) /\
               ReduceMean loss_tensor = spec_base_loss use_crf logits y_ph mask n_tags).
  { destruct use_crf; step E1 as s0 y_ph E0;
      apply getattr_tensor_inv in E0 as [-> E0];
      rewrite run_ret in E1; inversion E1; subst; eauto. }
  destruct Hl as (-> & y_ph & Hy & Hloss).
  step H as s2 total E2.
  assert (Ht : s2 = st /\
               total = spec_total_loss l2 (ReduceMean loss_tensor) (regularization_losses st)).
  { unfold spec_total_loss. destruct (Qpositive l2).
    - rewrite run_bind in E2. unfold run, tf_get_collection_regularization_losses in E2.
      simpl in E2. unfold ret in E2. inversion E2; subst. auto.
    - rewrite run_ret in E2. inversion E2; subst. auto. }
  destruct Ht as [-> ->].
  step H as s3 lr E3. apply getattr_tensor_inv in E3 as [-> E3].
  step H as s4 train_op E4. rewrite run_call in E4. inversion E4; subst s4.
  rewrite run_ret in H. inversion H; subst.
  split; [reflexivity |]. exists y_ph, lr, train_op.
  rewrite <- Hloss. auto.
Qed.

Lemma unpack3_pair {A} (a b : A) :
  unpack3 [a; b] = inl (ValueError "not enough values to unpack (expected 3, got 2)").
Proof. reflexivity. Qed.

Lemma aggregate_features_raises env st xs fs :
  features_state st xs fs ->
  run (aggregate_features env) st =
  (st, inl (TypeError "concat() missing 1 required positional argument: 'axis'")).
Proof.
  intros [_ Hfs]. unfold aggregate_features.
  rewrite (run_bind_ok _ _ _ _ _ (run_getattr_own env _ _ _ Hfs)). reflexivity.
Qed.

(** Splits a run on the outcome of its first [bind]; the raising case is
    closed when the goal asks for some exception. *)
Ltac bind_cases :=
  rewrite run_bind;
  lazymatch goal with
  | |- context [run ?m ?s] =>
      let E := fresh "E" in
      destruct (run m s) as [? [? | ?]] eqn:E; [simpl; eauto |]
  end.

Lemma build_network_raises env cfg features mask_ph st :
  exists e, snd (run (build_network env cfg features mask_ph) st) = inl e.
Proof.
  unfold build_network.
  do 6 bind_cases.
  apply build_train_predict_spec in E4 as (_ & y & lr & op & _ & _ & _ & ->).
  rewrite run_bind, run_call, unpack3_pair. simpl. eauto.
Qed.

(** ** The constructor *)

(** C1.  [__init__] never completes, for any configuration and any
    behaviour of the collaborators: it raises what a feature builder
    raised or, when the features are built, the TypeError of
    [tf.concat] called without its axis; so it returns from no state.
    The rest of the constructor, entered with any features, raises too,
    and whenever [_build_train_predict] returns, unpacking its
    two-element tuple into three names is a ValueError. *)
Theorem init_never_completes :
  (forall env cfg st,
      match run (build_input_features env cfg) st with
      | (st1, inl e) => run (__init__ env cfg) st = (st1, inl e)
      | (st1, inr _) => run (__init__ env cfg) st = (st1, inl concat_type_error)
      end) /\
  (forall env cfg st st', run (__init__ env cfg) st <> (st', inr tt)) /\
  (forall env cfg features mask_ph st,
      exists e, snd (run (build_network env cfg features mask_ph) st) = inl e) /\
  (forall env logits mask n_tags use_crf clip l2 st,
      match run (_build_train_predict env logits mask n_tags use_crf clip l2) st with
      | (_, inr result) => unpack3 result = inl unpack_value_error
      | (_, inl _) => True
      end).
Proof.
  assert (A : forall env cfg st,
             match run (build_input_features env cfg) st with
             | (st1, inl e) => run (__init__ env cfg) st = (st1, inl e)
             | (st1, inr _) => run (__init__ env cfg) st = (st1, inl concat_type_error)
             end).
  { intros env cfg st. unfold __init__. rewrite run_bind.
    destruct (run (build_input_features env cfg) st) as [st1 [e | m]] eqn:E;
      [reflexivity |].
    apply build_input_features_spec in E as (_ & emb0 & emb & _ & _ & Hf).
    rewrite run_bind, (aggregate_features_raises env _ _ _ Hf). reflexivity. }
  split; [exact A |]. split; [| split].
  - intros env cfg st st' H. specialize (A env cfg st).
    destruct (run (build_input_features env cfg) st) as [st1 [e | m]];
      rewrite A in H; discriminate H.
  - apply build_network_raises.
  - intros env logits mask n_tags use_crf clip l2 st.
    destruct (run (_build_train_predict env logits mask n_tags use_crf clip l2) st)
      as [st1 [e | result]] eqn:E; [exact I |].
    apply build_train_predict_spec in E as (_ & y & lr & op & _ & _ & _ & ->).
    reflexivity.
Qed.

(** ** Training *)

(** C3.  [train_on_batch] does nothing: for every batch it returns
    Python's None and leaves the instance and the graph as they were; it
    runs no training operation and returns no loss. *)
Theorem train_on_batch_does_nothing :
  forall x y st, run (train_on_batch x y) st = (st, inr VNone).
Proof. reflexivity. Qed.

(** ** The character features *)

(** C4.  [_build_char_embeddings] changes nothing in [self], whatever the
    character network does; so after the feature builders have run, with
    or without [char_emb_dim], the run-time inputs are the token ids, the
    mask and the switched-on capitalization and POS placeholders, the
    character placeholder is not among them, and the features to
    aggregate are the token embedding and the same two placeholders. *)
Theorem char_embeddings_not_registered :
  (forall env mat dropout st,
      fst (run (_build_char_embeddings env mat dropout) st) = st) /\
  (forall env cfg st,
      match run (build_input_features env cfg) st with
      | (st', inr _) =>
          (self_dict st' !! "_xs_placeholders" =
             Some (VTensorList
                     (token_indices_ph :: mask_placeholder :: flag_placeholders cfg))) /\
          (char_placeholder ∉
             (token_indices_ph :: mask_placeholder :: flag_placeholders cfg)) /\
          (exists emb,
              self_dict st' !! "_input_features" =
                Some (VTensorList (emb :: flag_placeholders cfg)))
      | (_, inl _) => True
      end).
Proof.
  split; [apply build_char_embeddings_state |].
  intros env cfg st.
  destruct (run (build_input_features env cfg) st) as [st' [e | m]] eqn:E;
    [exact I |].
  apply build_input_features_spec in E as (_ & emb0 & emb & _ & _ & Hxs & Hfs).
  split; [exact Hxs |]. split; [| eauto].
  unfold flag_placeholders, char_placeholder, token_indices_ph, mask_placeholder.
  destruct (capitalization_dim cfg), (pos_features_dim cfg); simpl;
    rewrite ?elem_of_cons, elem_of_nil; intros H;
    repeat (destruct H as [H | H]; [discriminate H |]); exact H.
Qed.

(** ** The recurrent encoders *)

(** The loop body of the fused builder never asks for the next item. *)
Lemma cudnn_rnn_body_returns env hs cell drop item units st :
  match run (cudnn_rnn_body env hs cell drop item units) st with
  | (_, inr (Next _)) => False
  | _ => True
  end.
Proof.
  unfold cudnn_rnn_body. destruct item as [n h].
  rewrite run_bind.
  destruct (run _ st) as [s1 [e | [[fw bw] o]]]; [exact I |].
  rewrite run_bind. destruct (run _ s1) as [s2 [e | u]]; [exact I |].
  rewrite run_bind. destruct (run _ s2) as [s3 [e | u']]; [exact I |].
  rewrite run_ret. exact I.
Qed.

Lemma for_each_cons {I A R} (i : I) (rest : list I) (body : I -> A -> M (ctl A R)) a :
  for_each (i :: rest) body a =
  bind (body i a)
    (fun c => match c with
              | Next a' => for_each rest body a'
              | Return r => ret (Return r)
              end).
Proof. reflexivity. Qed.

(** The fused builder reads [n_hidden_list] only through its first entry
    and its length. *)
Lemma cudnn_rnn_ignores_later_layers env units h rest rest' cell drop st :
  length rest = length rest' ->
  run (_build_cudnn_rnn env units (h :: rest) cell drop) st =
  run (_build_cudnn_rnn env units (h :: rest') cell drop) st.
Proof.
  intros Hlen. unfold _build_cudnn_rnn.
  destruct (negb (check_gpu_existance env)); [reflexivity |].
  unfold enumerate. simpl enumerate_from. rewrite !for_each_cons, !run_bind.
  assert (Hb : cudnn_rnn_body env (h :: rest) cell drop (0%nat, h) units =
               cudnn_rnn_body env (h :: rest') cell drop (0%nat, h) units).
  { unfold cudnn_rnn_body. simpl length. rewrite Hlen. reflexivity. }
  rewrite Hb.
  pose proof (cudnn_rnn_body_returns env (h :: rest') cell drop (0%nat, h) units st) as Hr.
  destruct (run (cudnn_rnn_body env (h :: rest') cell drop (0%nat, h) units) st)
    as [s1 [e | [u | u]]]; [reflexivity | contradiction | reflexivity].
Qed.

(** The fused builder returns Python's None only when there is no layer
    to build; the constructor then stops on [n_hidden_list[-1]]. *)
Lemma cudnn_rnn_none_without_layer env units hs cell drop st st' :
  run (_build_cudnn_rnn env units hs cell drop) st = (st', inr None) -> hs = [].
Proof.
  destruct hs as [| h rest]; [reflexivity |]. intros H. exfalso.
  unfold _build_cudnn_rnn in H.
  destruct (negb (check_gpu_existance env)); [discriminate H |].
  unfold enumerate in H. simpl enumerate_from in H.
  rewrite run_bind, for_each_cons, run_bind in H.
  pose proof (cudnn_rnn_body_returns env (h :: rest) cell drop (0%nat, h) units st) as Hr.
  destruct (run (cudnn_rnn_body env (h :: rest) cell drop (0%nat, h) units) st)
    as [s1 [e | [u | u]]]; [discriminate H | contradiction | discriminate H].
Qed.

Lemma layers_of_concat name input width bw axis :
  layers_of (Concat [Opaque name [input] width; bw] axis) =
  layers_of input ++ [(name, width)].
Proof. reflexivity. Qed.

(** Under the reference collaborators the plain builder applies every
    layer of [n_hidden_list], in order, and its output has twice the
    width of the last one. *)
Lemma rnn_loop_reference gpu engine cell drop keep all_layers st :
  cell = "lstm" \/ cell = "gru" ->
  self_dict st !! "_dropout_ph" = Some (VTensor keep) ->
  forall hs i units,
    (i + length hs = length all_layers)%nat ->
    exists t,
      run (for_each (enumerate_from i hs)
             (rnn_body (reference gpu engine) all_layers cell drop) units) st
        = (st, inr (Next t)) /\
      List.map snd (layers_of t) = List.map snd (layers_of units) ++ List.map Some hs /\
      (hs <> [] -> last_dim t = Some (2 * List.last hs 0)%Z).
Proof.
  intros Hcell Hkeep. induction hs as [| h rest IH]; intros i units Hlen.
  - exists units. simpl. rewrite app_nil_r. split; [reflexivity |]. split; [reflexivity |].
    intros H; contradiction.
  - simpl enumerate_from. rewrite for_each_cons, run_bind.
    set (layer := Concat [Opaque (("Layer_" ++ str_nat i) ++ "/" ++ cell ++ "_fw")%string
                            [units] (Some h);
                          Opaque (("Layer_" ++ str_nat i) ++ "/" ++ cell ++ "_bw")%string
                            [units] (Some h)] (-1)).
    assert (Hbody : exists t,
               run (rnn_body (reference gpu engine) all_layers cell drop (i, h) units) st
                 = (st, inr (Next t)) /\
               layers_of t = layers_of layer /\
               (rest = [] -> t = layer)).
    { unfold rnn_body. rewrite run_bind, run_call. simpl bi_rnn.
      assert (Hc : (String.eqb cell "lstm" || String.eqb cell "gru") = true)
        by (destruct Hcell; subst; reflexivity).
      rewrite Hc. rewrite run_bind, run_call. simpl tf_concat. cbv iota beta.
      rewrite run_bind. fold layer.
      assert (Hd : run (bind (getattr_tensor (reference gpu engine) "_dropout_ph")
                          (fun k => call (variational_dropout (reference gpu engine)
                                            layer k))) st
                   = (st, inr (Opaque "variational_dropout" [layer; keep]
                                 (last_dim layer)))).
      { rewrite run_bind. unfold getattr_tensor.
        rewrite (run_bind_ok _ _ _ _ _ (run_getattr_own _ _ _ _ Hkeep)). reflexivity. }
      destruct (drop && negb (Z.of_nat i =? Z.of_nat (length all_layers) - 1)%Z) eqn:D.
      - rewrite Hd, run_ret.
        eexists. split; [reflexivity |]. split; [reflexivity |].
        intros ->. simpl in Hlen.
        apply andb_prop in D as [_ D]. apply negb_true_iff in D.
        apply Z.eqb_neq in D. lia.
      - rewrite run_ret, run_ret. exists layer. auto. }
    destruct Hbody as (t & -> & Hlay & Hlast).
    destruct (IH (S i) t) as (t' & Hrun & Hl' & Hd'); [simpl in Hlen; lia |].
    exists t'. split; [exact Hrun |]. split.
    + rewrite Hl', Hlay. unfold layer. rewrite layers_of_concat.
      rewrite map_app. simpl. rewrite <- app_assoc. reflexivity.
    + intros _. destruct rest as [| h' rest'].
      * simpl in Hrun. rewrite run_ret in Hrun. inversion Hrun; subst t'.
        rewrite (Hlast eq_refl). simpl. f_equal. lia.
      * rewrite Hd' by discriminate. reflexivity.
Qed.

Lemma build_rnn_reference gpu engine cell drop keep hs units st :
  cell = "lstm" \/ cell = "gru" ->
  self_dict st !! "_dropout_ph" = Some (VTensor keep) ->
  hs <> [] ->
  exists t,
    run (_build_rnn (reference gpu engine) units hs cell drop) st = (st, inr t) /\
    List.map snd (layers_of t) = List.map snd (layers_of units) ++ List.map Some hs /\
    last_dim t = Some (2 * List.last hs 0)%Z.
Proof.
  intros Hcell Hkeep Hne.
  destruct (rnn_loop_reference gpu engine cell drop keep hs st Hcell Hkeep hs 0%nat units)
    as (t & Hrun & Hl & Hd); [reflexivity |].
  exists t. unfold _build_rnn, enumerate.
  rewrite (run_bind_ok _ _ _ _ _ Hrun), run_ret. auto.
Qed.

(** C2.  On [n_hidden_list = (128, 64)] with a GPU the fused builder
    returns after its first layer: one layer applied and an output of
    width 256, not the 128 of the last layer; the plain builder, on the
    same list, applies both layers and ends with width 128. *)
Theorem cudnn_rnn_stops_after_first_layer :
  match run (_build_cudnn_rnn (reference true no_engine) features_100
               [128; 64]%Z "lstm" false) initial_state with
  | (_, inr (Some t)) =>
      List.map snd (layers_of t) = [Some 128%Z] /\
      last_dim t = Some 256%Z /\
      last_dim t <> Some (2 * 64)%Z
  | _ => False
  end /\
  match run (_build_rnn (reference true no_engine) features_100
               [128; 64]%Z "lstm" false) initial_state with
  | (_, inr t) =>
      List.map snd (layers_of t) = [Some 128%Z; Some 64%Z] /\
      last_dim t = Some (2 * 64)%Z
  | _ => False
  end.
Proof.
  split.
  - vm_compute. repeat split; discriminate.
  - vm_compute. repeat split.
Qed.

(** ** Configuration errors *)

Lemma Qpositive_spec q : Qpositive q = true <-> (0 < q)%Q.
Proof.
  unfold Qpositive. rewrite Qlt_alt.
  destruct (0 ?= q)%Q; split; intros H; try reflexivity; discriminate H.
Qed.

(** Past the aggregation, an unknown [net_type] meets no branch of the
    constructor: [units] is read unbound. *)
Lemma unknown_net_type_unbound env cfg features mask_ph st :
  net_type cfg <> "rnn" -> net_type cfg <> "cnn" ->
  run (build_network env cfg features mask_ph) st = (st, inl (UnboundLocalError "units")).
Proof.
  intros Hr Hc. unfold build_network, encoder_units.
  apply String.eqb_neq in Hr, Hc. rewrite Hr, Hc. reflexivity.
Qed.




(** C5.  None of the four invalid configurations is answered with its
    descriptive error: each constructor call stops at the TypeError of
    the feature aggregation, before any check of the configuration (the
    fused path with [l2_reg = 0.5] on a CPU-only machine included); and
    entered past the aggregation, the constructor has no branch for an
    unknown [net_type] and raises UnboundLocalError for [units]. *)
Theorem invalid_configurations_not_reported :
  snd (run (__init__ (reference true no_engine) (configure "transformer" "lstm" false 0 false))
         initial_state) = inl concat_type_error /\
  snd (run (__init__ (reference true no_engine) (configure "rnn" "elman" true 0 false))
         initial_state) = inl concat_type_error /\
  snd (run (__init__ (reference false no_engine) (configure "rnn" "lstm" true 0 false))
         initial_state) = inl concat_type_error /\
  snd (run (__init__ (reference false no_engine) (configure "rnn" "lstm" true (1 # 2) false))
         initial_state) = inl concat_type_error /\
  snd (run (build_network (reference true no_engine)
              (configure "transformer" "lstm" false 0 false) features_100 mask_placeholder)
         initial_state) = inl (UnboundLocalError "units").
Proof. repeat split; vm_compute; reflexivity. Qed.
(** ** Attributes of an instance *)

Lemma preserves_ret {A} (a : A) : preserves (ret a).
Proof. intros st H. exact H. Qed.

Lemma preserves_raise {A} e : preserves (raise (A := A) e).
Proof. intros st H. exact H. Qed.

Lemma preserves_call {A} (r : exn + A) : preserves (call r).
Proof. intros st H. exact H. Qed.

Lemma preserves_bind {A B} (m : M A) (k : A -> M B) :
  preserves m -> (forall a, preserves (k a)) -> preserves (bind m k).
Proof.
  intros Hm Hk st H. rewrite run_bind. specialize (Hm st H).
  destruct (run m st) as [st1 [e | a]]; simpl in *; [exact Hm |].
  apply Hk. exact Hm.
Qed.

Lemma preserves_getattr env name : preserves (getattr env name).
Proof. intros st H. rewrite getattr_state. exact H. Qed.

Lemma preserves_getattr_tensor env name : preserves (getattr_tensor env name).
Proof. intros st H. rewrite getattr_tensor_state. exact H. Qed.

Lemma instance_inv_set st name v :
  name ∈ assigned_names ->
  (name = "_xs_placeholders" -> exists l, v = VTensorList l) ->
  instance_inv st -> instance_inv (set_attr st name v).
Proof.
  intros Hn Hv [Hd Hx]. split.
  - unfold set_attr; simpl. rewrite dom_insert_L.
    apply union_least; [apply singleton_subseteq_l; exact Hn | exact Hd].
  - intros w. rewrite lookup_set_attr. case_decide.
    + intros [= <-]. auto.
    + apply Hx.
Qed.

Lemma preserves_setattr name v :
  name ∈ assigned_names ->
  (name = "_xs_placeholders" -> exists l, v = VTensorList l) ->
  preserves (setattr name v).
Proof. intros Hn Hv st H. rewrite run_setattr. simpl. apply instance_inv_set; assumption. Qed.

Lemma preserves_attr_append env name t :
  name ∈ assigned_names -> preserves (attr_append env name t).
Proof.
  intros Hn. unfold attr_append. apply preserves_bind; [apply preserves_getattr |].
  intros [] ; try apply preserves_raise.
  apply preserves_setattr; eauto.
Qed.

Lemma preserves_dense inputs units act : preserves (tf_layers_dense inputs units act).
Proof. intros st H. exact H. Qed.

Lemma preserves_get_collection : preserves tf_get_collection_regularization_losses.
Proof. intros st H. exact H. Qed.

Lemma preserves_for_each {I A R} (items : list I) (body : I -> A -> M (ctl A R)) :
  (forall i a, preserves (body i a)) -> forall a, preserves (for_each items body a).
Proof.
  intros Hb. induction items as [| i rest IH]; intros a.
  - apply preserves_ret.
  - rewrite for_each_cons. apply preserves_bind; [apply Hb |].
    intros [a' | r]; [apply IH | apply preserves_ret].
Qed.

Lemma assigned_name_elem name :
  name ∈ ["learning_rate_ph"; "_dropout_ph"; "training_ph"; "_xs_placeholders";
          "_y_ph"; "_input_features"; "train_op"; "loss"; "predict"; "sess"] ->
  name ∈ assigned_names.
Proof. intros H. unfold assigned_names. apply elem_of_list_to_set. exact H. Qed.

Create HintDb preserves.
#[local] Hint Resolve preserves_ret preserves_raise preserves_call preserves_getattr
  preserves_getattr_tensor preserves_dense preserves_get_collection : preserves.

(** Decomposes a method into its statements. *)
Ltac preserves_tac :=
  repeat first
    [ progress auto with preserves
    | apply preserves_bind; [| intros ?]
    | apply preserves_attr_append; apply assigned_name_elem; repeat constructor
    | apply preserves_setattr;
      [apply assigned_name_elem; repeat constructor | first [discriminate | eauto]]
    | apply preserves_for_each; intros ? ?
    | match goal with
      | |- preserves (match ?x with _ => _ end) => destruct x
      end ].

Lemma init_preserves env cfg : preserves (__init__ env cfg).
Proof.
  unfold __init__, build_input_features, aggregate_features, build_network,
    encoder_units, _build_training_placeholders, _build_word_embeddings, _build_mask,
    _build_char_embeddings, _build_capitalization, _build_pos, _build_cudnn_rnn,
    _build_rnn, _build_cnn, _build_top, _build_train_predict, cudnn_rnn_body, rnn_body.
  preserves_tac.
Qed.

Lemma predict_no_crf_preserves env args : preserves (predict_no_crf env args).
Proof. unfold predict_no_crf, decode_sentences, crf_decode_body. preserves_tac. Qed.

Lemma invoke_preserves env i st : instance_inv st -> instance_inv (invoke env i st).
Proof.
  destruct i; cbn [invoke];
    try (intros H; exact H);
    try apply init_preserves;
    try apply predict_no_crf_preserves;
    match goal with
    | |- instance_inv st -> instance_inv (fst (run ?m st)) =>
        revert st; change (preserves m)
    end;
    unfold _build_training_placeholders, _build_word_embeddings, _build_mask,
      _build_char_embeddings, _build_capitalization, _build_pos, _build_cudnn_rnn,
      _build_rnn, _build_cnn, _build_top, _build_train_predict, cudnn_rnn_body, rnn_body;
    preserves_tac.
Qed.

Lemma reachable_inv env st : reachable env st -> instance_inv st.
Proof.
  induction 1 as [penalties | i st _ IH].
  - split; simpl.
    + rewrite dom_empty_L. apply empty_subseteq.
    + intros v H. rewrite lookup_empty in H. discriminate H.
  - apply invoke_preserves. exact IH.
Qed.

Lemma not_assigned_absent st name :
  instance_inv st -> name ∉ assigned_names -> self_dict st !! name = None.
Proof.
  intros [Hd _] Hn. apply not_elem_of_dom. intros H. apply Hn, Hd, H.
Qed.

Lemma names_not_assigned name :
  name ∈ ["_use_crf"; "_sess"; "_logits"; "_transition_params"; "_sequence_lengths";
          "_y_pred"] ->
  name ∉ assigned_names.
Proof.
  intros H Ha. unfold assigned_names in Ha. apply elem_of_list_to_set in Ha.
  repeat (apply elem_of_cons in H as [-> | H];
          [repeat (apply elem_of_cons in Ha as [Ha | Ha]; [discriminate Ha |]);
           apply elem_of_nil in Ha; exact Ha |]).
  apply elem_of_nil in H. exact H.
Qed.

(** C10.  On every state that calls of the class's methods can bring an
    instance to, none of [_use_crf], [_sess], [_logits],
    [_transition_params], [_sequence_lengths], [_y_pred] is an attribute
    of the instance; so, when the base classes define none of the names
    the method reads, every call of [predict_no_crf] raises
    AttributeError, whatever its arguments, and changes nothing. *)
Theorem predict_no_crf_attribute_error env st args :
  reachable env st ->
  (forall name, name ∈ names_read_by_predict -> inherited env !! name = None) ->
  (forall name,
      name ∈ ["_use_crf"; "_sess"; "_logits"; "_transition_params";
              "_sequence_lengths"; "_y_pred"] ->
      self_dict st !! name = None) /\
  exists attr, run (predict_no_crf env args) st = (st, inl (AttributeError attr)).
Proof.
  intros Hr Hbase. apply reachable_inv in Hr.
  assert (Habs : forall name,
             name ∈ ["_use_crf"; "_sess"; "_logits"; "_transition_params";
                     "_sequence_lengths"; "_y_pred"] ->
             self_dict st !! name = None).
  { intros name Hn. apply not_assigned_absent; [exact Hr |].
    apply names_not_assigned. exact Hn. }
  split; [exact Habs |].
  assert (Hcrf : run (getattr env "_use_crf") st = (st, inl (AttributeError "_use_crf"))).
  { unfold run, getattr. rewrite Habs by repeat constructor.
    rewrite Hbase by (unfold names_read_by_predict; repeat constructor). reflexivity. }
  unfold predict_no_crf. rewrite run_bind.
  destruct (self_dict st !! "_xs_placeholders") as [v |] eqn:Hx.
  - rewrite (run_getattr_own env _ _ _ Hx).
    destruct Hr as [_ Hl]. destruct (Hl v Hx) as [l ->].
    rewrite run_bind, run_ret, run_bind, Hcrf. eauto.
  - unfold run at 1, getattr. rewrite Hx.
    rewrite Hbase by (unfold names_read_by_predict; repeat constructor). eauto.
Qed.

Lemma predict_no_crf_attribute_error_witness :
  (forall name,
      name ∈ ["_use_crf"; "_sess"; "_logits"; "_transition_params";
              "_sequence_lengths"; "_y_pred"] ->
      self_dict abandoned_instance !! name = None) /\
  exists attr,
    run (predict_no_crf (reference true no_engine) [VNone; VNone]) abandoned_instance
      = (abandoned_instance, inl (AttributeError attr)).
Proof.
  apply (predict_no_crf_attribute_error (reference true no_engine) abandoned_instance
           [VNone; VNone]).
  - apply (reachable_call _ (Call_init (default_config 3)) _ (reachable_new _ [])).
  - intros name _. apply lookup_empty.
Defined.

(** ** Decoding *)

Lemma viterbi_backtrack_length start bps :
  length (viterbi_backtrack start bps) = S (length bps).
Proof.
  unfold viterbi_backtrack.
  assert (H : forall acc,
             length (fold_left
                       (fun viterbi bp =>
                          viterbi ++ [nth (List.last viterbi 0%nat) bp 0%nat]) bps acc)
             = (length acc + length bps)%nat).
  { induction bps as [| bp rest IH]; intros acc; simpl.
    - lia.
    - rewrite IH, length_app. simpl. lia. }
  rewrite H. reflexivity.
Qed.

Lemma viterbi_forward_cons transition_params prev row rest :
  viterbi_forward transition_params prev (row :: rest) =
  let '(cur, bp) := viterbi_step transition_params prev row in
  let '(final, bps) := viterbi_forward transition_params cur rest in
  (final, bp :: bps).
Proof. reflexivity. Qed.

Lemma viterbi_forward_length transition_params rows :
  forall prev, length (snd (viterbi_forward transition_params prev rows)) = length rows.
Proof.
  induction rows as [| row rest IH]; intros prev.
  - reflexivity.
  - rewrite viterbi_forward_cons.
    destruct (viterbi_step transition_params prev row) as [cur bp].
    specialize (IH cur).
    destruct (viterbi_forward transition_params cur rest) as [final bps].
    simpl in *. f_equal. exact IH.
Qed.

(** Whenever the decoder returns, its path has one tag per row of the
    score. *)
Lemma viterbi_decode_length score transition_params path best :
  viterbi_decode score transition_params = inr (path, best) ->
  length path = length score.
Proof.
  unfold viterbi_decode. destruct score as [| first rest]; [discriminate |].
  destruct (well_shaped (first :: rest) transition_params); [| discriminate].
  pose proof (viterbi_forward_length transition_params rest first) as Hf.
  destruct (viterbi_forward transition_params first rest) as [final bps].
  intros [= <- _]. simpl in Hf.
  rewrite length_rev, viterbi_backtrack_length, length_rev, Hf. reflexivity.
Qed.

(** On a score with at least one row and of the right shape the decoder
    returns. *)
Lemma viterbi_decode_returns score transition_params :
  score <> [] -> well_shaped score transition_params = true ->
  exists path best,
    viterbi_decode score transition_params = inr (path, best) /\
    length path = length score.
Proof.
  intros Hne Hw.
  destruct (viterbi_decode score transition_params) as [e | [path best]] eqn:E.
  - unfold viterbi_decode in E. destruct score as [| first rest]; [contradiction |].
    rewrite Hw in E.
    destruct (viterbi_forward transition_params first rest); discriminate E.
  - exists path, best. split; [reflexivity |].
    eapply viterbi_decode_length; eassumption.
Qed.

(** The decoder is a function: the same score and transitions give the
    same path. *)
Lemma viterbi_decode_deterministic score transition_params r1 r2 :
  viterbi_decode score transition_params = r1 ->
  viterbi_decode score transition_params = r2 -> r1 = r2.
Proof. congruence. Qed.

Lemma chunks_length {A} count width (l : list A) : length (chunks count width l) = count.
Proof.
  revert l. induction count as [| c IH]; intros l; simpl; [reflexivity |].
  rewrite IH. reflexivity.
Qed.

Lemma chunks_rows {A} count width (l : list A) :
  (count * width <= length l)%nat ->
  Forall (fun r => length r = width) (chunks count width l).
Proof.
  revert l. induction count as [| c IH]; intros l H; simpl; constructor.
  - rewrite length_firstn. simpl in H. lia.
  - apply IH. rewrite length_skipn. simpl in H. lia.
Qed.

Lemma chunks_singletons {A} (l : list A) :
  chunks (length l) 1 l = List.map (fun x => [x]) l.
Proof.
  induction l as [| x l IH]; simpl; [reflexivity |].
  change (firstn 0 l) with (@nil A). change (skipn 0 l) with l.
  rewrite IH. reflexivity.
Qed.

Lemma forallb_rows (rows : list (list Q)) width :
  Forall (fun r => length r = width) rows ->
  forallb (fun r => (length r =? width)%nat) rows = true.
Proof.
  intros H. apply forallb_forall. intros r Hr.
  rewrite Forall_forall in H. apply Nat.eqb_eq. apply H. apply list_elem_of_In. exact Hr.
Qed.

(** A score of [m >= 1] rows cut from enough data, with square
    transitions, has the shape the decoder asks for. *)
Lemma well_shaped_chunks m T (zs ts : list Q) :
  (1 <= m)%nat -> (1 <= T)%nat ->
  (m * T <= length zs)%nat -> length ts = (T * T)%nat ->
  chunks m T zs <> [] /\
  well_shaped (chunks m T zs) (chunks T T ts) = true.
Proof.
  intros Hm HT Hz Ht.
  pose proof (chunks_rows m T zs Hz) as Hrows.
  pose proof (chunks_rows T T ts ltac:(lia)) as Htrans.
  destruct (chunks m T zs) as [| first rest] eqn:E.
  - apply (f_equal (@length _)) in E. rewrite chunks_length in E. simpl in E. lia.
  - split; [discriminate |]. unfold well_shaped.
    assert (Hf : length first = T) by (inversion Hrows; assumption).
    rewrite Hf, chunks_length, Nat.eqb_refl.
    rewrite (forallb_rows _ _ Hrows), (forallb_rows _ _ Htrans).
    apply Nat.leb_le in HT. rewrite HT. reflexivity.
Qed.

(** One turn of the loop on a sentence whose length [k] is between 1 and
    the padded length: a path of [k] tags joins [y_pred]. *)
Lemma crf_decode_body_length L T (zs ts : list Q) k y_pred st :
  (1 <= T)%nat -> (L * T <= length zs)%nat -> length ts = (T * T)%nat ->
  (1 <= Qtrunc k <= Z.of_nat L)%Z ->
  exists path,
    run (crf_decode_body (VArray (mk_nd [T; T] ts))
           (mk_nd [L; T] zs, mk_nd [] [k]) y_pred) st
      = (st, inr (Next (y_pred ++ [path]))) /\
    length path = Z.to_nat (Qtrunc k).
Proof.
  intros HT Hz Ht Hk. unfold crf_decode_body.
  rewrite run_bind, run_call. cbn [py_int nd_data].
  rewrite run_bind, run_call. unfold nd_slice_to. cbn [nd_shape nd_data].
  assert (Hm : slice_count (Qtrunc k) L = Z.to_nat (Qtrunc k)).
  { unfold slice_count. destruct (0 <=? Qtrunc k)%Z eqn:E; [lia |].
    apply Z.leb_gt in E. lia. }
  rewrite Hm. set (m := Z.to_nat (Qtrunc k)).
  assert (Hm1 : (1 <= m <= L)%nat) by (unfold m; lia).
  rewrite run_bind, run_call. unfold viterbi_decode_arrays, nd_matrix.
  cbn [nd_shape nd_data size_of fold_right].
  destruct (well_shaped_chunks m T (firstn (m * (T * 1)) zs) ts) as [Hne Hw];
    [lia | lia | | exact Ht |].
  { rewrite length_firstn. nia. }
  destruct (viterbi_decode_returns _ _ Hne Hw) as (path & best & Hv & Hlen).
  rewrite Hv. rewrite run_ret. exists path. split; [reflexivity |].
  rewrite Hlen, chunks_length. reflexivity.
Qed.

(** The loop over the sentences, given fetched arrays of shapes
    [B, L, T], [T, T] and [B] and lengths between 1 and [L]: it returns
    one path per sentence, as long as the sentence. *)
Lemma decode_sentences_lengths B L T (zs ts ks : list Q) st :
  (1 <= T)%nat -> length zs = (B * (L * T))%nat -> length ts = (T * T)%nat ->
  length ks = B ->
  Forall (fun k => (1 <= Qtrunc k <= Z.of_nat L)%Z) ks ->
  exists paths,
    run (decode_sentences (VArray (mk_nd [B; L; T] zs)) (VArray (mk_nd [T; T] ts))
           (VArray (mk_nd [B] ks))) st = (st, inr paths) /\
    List.map (@length nat) paths = List.map (fun k => Z.to_nat (Qtrunc k)) ks.
Proof.
  intros HT Hz Ht Hks Hk. unfold decode_sentences.
  rewrite run_bind, run_call. unfold iter_array, nd_items. cbn [nd_shape nd_data].
  rewrite run_bind, run_call. cbn [nd_shape nd_data size_of fold_right].
  subst B. rewrite chunks_singletons.
  assert (Hloop : forall ks zs acc,
             length zs = (length ks * (L * T))%nat ->
             Forall (fun k => (1 <= Qtrunc k <= Z.of_nat L)%Z) ks ->
             exists paths,
               run (for_each
                      (combine (List.map (mk_nd [L; T]) (chunks (length ks) (L * (T * 1)) zs))
                               (List.map (mk_nd []) (List.map (fun x => [x]) ks)))
                      (crf_decode_body (VArray (mk_nd [T; T] ts))) acc) st
                 = (st, inr (Next (acc ++ paths))) /\
               List.map (@length nat) paths
               = List.map (fun k => Z.to_nat (Qtrunc k)) ks).
  { clear Hz Hk zs ks. induction ks as [| k ks IH]; intros zs acc Hz Hk.
    - exists []. rewrite app_nil_r. split; reflexivity.
    - inversion Hk as [| ? ? Hk1 Hk2]; subst.
      cbn [length chunks List.map combine]. rewrite for_each_cons, run_bind.
      destruct (crf_decode_body_length L T (firstn (L * (T * 1)) zs) ts k acc st)
        as (path & Hrun & Hlen); [exact HT | | exact Ht | exact Hk1 |].
      { rewrite length_firstn. simpl in Hz. nia. }
      rewrite Hrun.
      destruct (IH (skipn (L * (T * 1)) zs) (acc ++ [path])) as (paths & Hrest & Hlens);
        [rewrite length_skipn; simpl in Hz; nia | exact Hk2 |].
      rewrite Hrest. exists (path :: paths). split.
      + rewrite <- app_assoc. reflexivity.
      + simpl. rewrite Hlen, Hlens. reflexivity. }
  destruct (Hloop ks zs [] Hz Hk) as (paths & Hrun & Hlens).
  rewrite run_bind, Hrun, run_ret. exists paths. split; [reflexivity | exact Hlens].
Qed.

(** The loop over the sentences, given fetched arrays: one path per
    sentence, as long as the sentence. *)
Example decode_loop_lengths :
  run (decode_sentences (VArray example_logits) (VArray example_transitions)
         (VArray example_lengths)) initial_state
  = (initial_state, inr [[0; 1; 2]; [1; 0]]%nat).
Proof. vm_compute. reflexivity. Qed.

(** A sentence of length zero stops the loop: the decoder reads the
    first row of an empty score. *)
Example decode_loop_empty_sentence :
  run (decode_sentences (VArray example_logits) (VArray example_transitions)
         (VArray (mk_nd [2]%nat [3; 0]%Q))) initial_state
  = (initial_state,
     inl (IndexError "index 0 is out of bounds for axis 0 with size 0")).
Proof. vm_compute. reflexivity. Qed.

(** C7.  In CRF mode no sentence is ever decoded: on the instance left
    by the constructor with [use_crf=True], [predict_no_crf] raises
    AttributeError for [_use_crf], whatever batch it is given (token ids
    and mask of two sentences for one), before it reaches the session or
    the Viterbi loop; the instance has none of the attributes the CRF
    branch reads. *)
Theorem crf_inference_never_decodes :
  (forall args,
      run (predict_no_crf (reference true no_engine) args) abandoned_crf_instance
      = (abandoned_crf_instance, inl (AttributeError "_use_crf"))) /\
  run (predict_no_crf (reference true no_engine)
         [VArray example_tokens; VArray example_mask]) abandoned_crf_instance
  = (abandoned_crf_instance, inl (AttributeError "_use_crf")) /\
  List.map (fun name => self_dict abandoned_crf_instance !! name)
    ["_use_crf"; "_sess"; "_logits"; "_transition_params"; "_sequence_lengths"]
  = [None; None; None; None; None].
Proof.
  split; [| split].
  - intros args. vm_compute. reflexivity.
  - vm_compute. reflexivity.
  - vm_compute. reflexivity.
Qed.
(** ** Dropout on the token embeddings *)

Lemma broadcast_index_sequence B D b t d :
  broadcast_index [B; 1; D]%nat [b; t; d] =
  [if (B =? 1)%nat then 0%nat else b; 0%nat; if (D =? 1)%nat then 0%nat else d].
Proof. reflexivity. Qed.

(** C6, as the code has it.  With [embeddings_dropout] set, the token
    embedding passes through a dropout whose noise shape is
    [batch, 1, dim]: one keep-or-drop bit per example and per embedding
    channel, shared by all the positions of the sequence. *)
Theorem embedding_dropout_mask_per_channel env cfg st emb :
  embeddings_dropout cfg = true ->
  embedding_feature env cfg st = Some emb ->
  exists emb0 rate,
    emb = tf_layers_dropout emb0 rate [ShapeAt emb0 0; ConstInt 1; ShapeAt emb0 2] /\
    forall shape_of B L D,
      shape_of emb0 = Some [B; L; D] ->
      (noise_shape_value shape_of [ShapeAt emb0 0; ConstInt 1; ShapeAt emb0 2]
         = Some [B; 1; D]%nat) /\
      forall noise b t t' d,
        keep_mask [B; 1; D]%nat noise [b; t; d] = keep_mask [B; 1; D]%nat noise [b; t'; d].
Proof.
  intros Hdrop Hemb. unfold embedding_feature in Hemb.
  destruct (run (build_input_features env cfg) st) as [st' [e | m]] eqn:E;
    [discriminate Hemb |].
  apply build_input_features_spec in E as (_ & emb0 & emb' & _ & Hd & _ & Hfs).
  rewrite Hfs in Hemb. injection Hemb as <-.
  rewrite Hdrop in Hd. destruct Hd as [rate ->].
  exists emb0, rate. split; [reflexivity |].
  intros shape_of B L D Hs. split.
  - unfold noise_shape_value, dim_value; simpl. rewrite Hs. reflexivity.
  - intros noise b t t' d. unfold keep_mask.
    rewrite !broadcast_index_sequence. reflexivity.
Qed.

Lemma embedding_dropout_mask_per_channel_witness :
  exists emb0 rate,
    dropout_feature =
      tf_layers_dropout emb0 rate [ShapeAt emb0 0; ConstInt 1; ShapeAt emb0 2] /\
    forall shape_of B L D,
      shape_of emb0 = Some [B; L; D] ->
      (noise_shape_value shape_of [ShapeAt emb0 0; ConstInt 1; ShapeAt emb0 2]
         = Some [B; 1; D]%nat) /\
      forall noise b t t' d,
        keep_mask [B; 1; D]%nat noise [b; t; d] = keep_mask [B; 1; D]%nat noise [b; t'; d].
Proof.
  apply (embedding_dropout_mask_per_channel (reference true no_engine) dropout_config
           initial_state dropout_feature).
  - reflexivity.
  - vm_compute. reflexivity.
Defined.

(** C6, as the spec words it, fails.  For an embedding of shape
    [2, 3, 4] the noise shape of the dropout built by the code is
    [2, 1, 4] and not [2, 3, 1], and with a draw that keeps channel 0
    only, channels 0 and 1 of example 0 at position 0 are not kept or
    dropped together. *)
Lemma embedding_dropout_not_per_position :
  match embedding_feature (reference true no_engine) dropout_config initial_state with
  | Some (LayersDropout emb0 _ noise_shape _) =>
      match noise_shape_value (fun _ => Some [2; 3; 4]%nat) noise_shape with
      | Some ns =>
          ns = [2; 1; 4]%nat /\ ns <> [2; 3; 1]%nat /\
          keep_mask ns keep_first_channel [0; 0; 0]%nat
            <> keep_mask ns keep_first_channel [0; 0; 1]%nat
      | None => False
      end
  | _ => False
  end.
Proof. vm_compute. repeat split; discriminate. Qed.
(** ** The value of the loss *)


Lemma reduce_mean_nonempty a :
  nd_data a <> [] ->
  reduce_mean a = Some (mk_nd [] [(Rsum (nd_data a) / INR (length (nd_data a)))%R]).
Proof. unfold reduce_mean. destruct (nd_data a); [contradiction | reflexivity]. Qed.




Lemma eval_pack_scalars input penalties ps :
  Forall2 (fun t p => eval input t = Some (scalar p)) penalties ps ->
  ps <> [] ->
  eval input (ReduceMean (Pack penalties))
  = Some (scalar (Rsum ps / INR (length ps))).
Proof.
  intros H Hne. cbn [eval].
  assert (Hf : fold_right
                 (fun v acc =>
                    match eval input v, acc with
                    | Some (FloatArr x), Some r => Some (x :: r)
                    | _, _ => None
                    end) (Some []) penalties
               = Some (List.map (fun p => mk_nd [] [p]) ps)).
  { clear Hne. induction H as [| t p ts ps' Ht _ IH]; simpl; [reflexivity |].
    rewrite Ht, IH. reflexivity. }
  rewrite Hf.
  assert (Hp : pack (List.map (fun p => mk_nd [] [p]) ps) = Some (mk_nd [length ps] ps)).
  { destruct ps as [| p ps']; [contradiction |]. unfold pack.
    cbn [List.map nd_shape].
    replace (forallb _ _) with true.
    - f_equal. f_equal.
      + simpl. rewrite length_map. reflexivity.
      + simpl. f_equal. clear. induction ps' as [| q qs IH]; simpl; [reflexivity |].
        rewrite IH. reflexivity.
    - symmetry. apply forallb_forall. intros x Hx.
      change (In x (List.map (fun q => mk_nd [] [q]) (p :: ps'))) in Hx.
      apply in_map_iff in Hx as (q & <- & _). reflexivity. }
  rewrite Hp. cbn [fmap option_fmap option_map].
  rewrite reduce_mean_nonempty by (cbn [nd_data]; exact Hne). reflexivity.
Qed.

(** C9.  The loss handed to the optimizer by [_build_train_predict] is
    the base loss plus [l2_reg] times the mean of the collected penalties
    when [l2_reg > 0], as a graph and as a number, and is the base loss
    itself when [l2_reg = 0]. *)
Theorem total_loss_adds_l2_penalty
    env logits mask n_tags use_crf clip l2 st st' train_op loss input base :
  run (_build_train_predict env logits mask n_tags use_crf clip l2) st
    = (st', inr [train_op; VTensor loss]) ->
  eval input loss = Some (scalar base) ->
  exists total learning_rate,
    get_train_op env total learning_rate clip = inr train_op /\
    ((0 < l2)%Q ->
     total = Add loss (Mul (Const l2) (ReduceMean (Pack (regularization_losses st)))) /\
     forall ps,
       Forall2 (fun t p => eval input t = Some (scalar p)) (regularization_losses st) ps ->
       ps <> [] ->
       eval input total = Some (scalar (base + Q2R l2 * (Rsum ps / INR (length ps))))) /\
    ((l2 == 0)%Q -> total = loss /\ eval input total = Some (scalar base)).
Proof.
  intros Hrun Hbase.
  apply build_train_predict_spec in Hrun as (_ & y & lr & op & _ & _ & Hop & Hres).
  injection Hres as -> ->.
  eexists _, lr. split; [exact Hop |]. unfold spec_total_loss. split.
  - intros Hpos. apply Qpositive_spec in Hpos. rewrite Hpos. split; [reflexivity |].
    intros ps Hps Hne.
    change (eval input (Add ?a (Mul ?c ?m)))
      with (match eval input a, eval input (Mul c m) with
            | Some (FloatArr x), Some (FloatArr y) => FloatArr <$> elementwise Rplus x y
            | _, _ => None
            end).
    change (eval input (Mul (Const l2) ?m))
      with (match Some (scalar (Q2R l2)), eval input m with
            | Some (FloatArr x), Some (FloatArr y) => FloatArr <$> elementwise Rmult x y
            | _, _ => None
            end).
    rewrite (eval_pack_scalars input _ ps Hps Hne), Hbase. reflexivity.
  - intros Hzero.
    assert (Hn : Qpositive l2 = false).
    { apply not_true_is_false. rewrite Qpositive_spec. intros Hlt.
      rewrite Hzero in Hlt. exact (Qlt_irrefl 0 Hlt). }
    rewrite Hn. split; [reflexivity | exact Hbase].
Qed.

Lemma total_loss_adds_l2_penalty_witness :
  eval crf_input regularised_total
  = Some (scalar (4 + Q2R (1 # 2) * (Rsum [2; 6]%R / INR 2))).
Proof.
  destruct (total_loss_adds_l2_penalty (reference true no_engine) logits_node
              mask_placeholder 3%Z true 5 (1 # 2) regularised_instance
              regularised_instance
              (VTrainOp regularised_total learning_rate_placeholder 5)
              crf_loss crf_input 4%R)
    as (total & lr & Hop & Hpos & _).
  - vm_compute. reflexivity.
  - cbn. unfold scalar. do 4 f_equal. lra.
  - simpl in Hop. injection Hop as <- _.
    destruct Hpos as [_ Hval]; [reflexivity |].
    apply (Hval [2; 6]%R).
    + repeat constructor.
    + discriminate.
Defined.

(** * Further properties *)

(** ** What the builders and the predictor leave untouched *)

Lemma read_only_ret {A} (a : A) : read_only (ret a).
Proof. intros st. reflexivity. Qed.

Lemma read_only_raise {A} e : read_only (raise (A := A) e).
Proof. intros st. reflexivity. Qed.

Lemma read_only_call {A} (r : exn + A) : read_only (call r).
Proof. intros st. reflexivity. Qed.

Lemma read_only_getattr env name : read_only (getattr env name).
Proof. intros st. apply getattr_state. Qed.

Lemma read_only_getattr_tensor env name : read_only (getattr_tensor env name).
Proof. intros st. apply getattr_tensor_state. Qed.

Lemma read_only_get_collection : read_only tf_get_collection_regularization_losses.
Proof. intros st. reflexivity. Qed.

Lemma read_only_bind {A B} (m : M A) (k : A -> M B) :
  read_only m -> (forall a, read_only (k a)) -> read_only (bind m k).
Proof.
  intros Hm Hk st. rewrite run_bind. specialize (Hm st).
  destruct (run m st) as [st1 [e | a]]; simpl in *; subst; [reflexivity | apply Hk].
Qed.

Lemma read_only_for_each {I A R} (items : list I) (body : I -> A -> M (ctl A R)) :
  (forall i a, read_only (body i a)) -> forall a, read_only (for_each items body a).
Proof.
  intros Hb. induction items as [| i rest IH]; intros a.
  - apply read_only_ret.
  - rewrite for_each_cons. apply read_only_bind; [apply Hb |].
    intros [a' | r]; [apply IH | apply read_only_ret].
Qed.

Create HintDb read_only.
#[local] Hint Resolve read_only_ret read_only_raise read_only_call read_only_getattr
  read_only_getattr_tensor read_only_get_collection : read_only.

Ltac read_only_tac :=
  repeat first
    [ progress auto with read_only
    | apply read_only_bind; [| intros ?]
    | apply read_only_for_each; intros ? ?
    | match goal with
      | |- read_only (match ?x with _ => _ end) => destruct x
      end ].

Lemma build_train_predict_read_only env logits mask n_tags use_crf clip l2 :
  read_only (_build_train_predict env logits mask n_tags use_crf clip l2).
Proof. unfold _build_train_predict. read_only_tac. Qed.

Lemma build_cudnn_rnn_read_only env units hs cell drop :
  read_only (_build_cudnn_rnn env units hs cell drop).
Proof. unfold _build_cudnn_rnn, cudnn_rnn_body. read_only_tac. Qed.

Lemma build_rnn_read_only env units hs cell drop :
  read_only (_build_rnn env units hs cell drop).
Proof. unfold _build_rnn, rnn_body. read_only_tac. Qed.

Lemma build_cnn_read_only env units hs width bn :
  read_only (_build_cnn env units hs width bn).
Proof. unfold _build_cnn. read_only_tac. Qed.

Lemma predict_no_crf_read_only env args : read_only (predict_no_crf env args).
Proof. unfold predict_no_crf, decode_sentences, crf_decode_body. read_only_tac. Qed.

(** X1.  Prediction has no effect on the instance or on the graph:
    whatever the arguments, the attributes present and the answers of
    the session, [predict_no_crf] leaves the state exactly as it was,
    whether it returns or raises. *)
Theorem predict_no_crf_changes_nothing :
  forall env args st, fst (run (predict_no_crf env args) st) = st.
Proof. intros env args. apply predict_no_crf_read_only. Qed.

(** ** The output head *)

(** X3.  Whenever [_build_top] returns, the logits are a linear dense
    layer of [n_tags] units (so their last axis has width [n_tags]),
    placed on the units themselves when [top_dropout] is off; the
    attributes of the instance are unchanged, and the collection of
    penalties has grown by exactly one penalty per dense layer built (two
    with [two_dense_on_top], else one), the last one being that of the
    logits. *)
Theorem build_top_logits env units n_tags n_hididden top_dropout two_dense st st' logits :
  run (_build_top env units n_tags n_hididden top_dropout two_dense) st
    = (st', inr logits) ->
  exists u,
    (top_dropout = false -> u = units) /\
    logits = Dense (if two_dense then Dense u n_hididden (Some tf_nn_relu) else u)
               n_tags None /\
    last_dim logits = Some n_tags /\
    self_dict st' = self_dict st /\
    regularization_losses st' =
      regularization_losses st ++ top_penalties u n_tags n_hididden two_dense.
Proof.
  intros H. unfold _build_top in H.
  step H as s1 u E1.
  assert (Hu : s1 = st /\ (top_dropout = false -> u = units)).
  { destruct top_dropout.
    - step E1 as s0 keep E0. apply getattr_tensor_inv in E0 as [-> _].
      rewrite run_call in E1. inversion E1; subst. split; [reflexivity | discriminate].
    - rewrite run_ret in E1. inversion E1; subst. auto. }
  destruct Hu as [-> Hu]. exists u. split; [exact Hu |].
  unfold top_penalties. destruct two_dense.
  - rewrite run_bind in H. unfold run, tf_layers_dense in H. simpl in H.
    inversion H; subst; simpl. rewrite <- app_assoc. auto.
  - rewrite run_bind, run_ret in H. unfold run, tf_layers_dense in H. simpl in H.
    inversion H; subst; simpl. auto.
Qed.

Lemma build_top_logits_witness :
  exists u,
    (false = false -> u = features_100) /\
    Dense (Dense features_100 128 (Some tf_nn_relu)) 3 None
      = Dense (if true then Dense u 128 (Some tf_nn_relu) else u) 3 None /\
    last_dim (Dense (Dense features_100 128 (Some tf_nn_relu)) 3 None) = Some 3%Z /\
    self_dict regularised_instance = self_dict abandoned_instance /\
    regularization_losses regularised_instance =
      regularization_losses abandoned_instance ++ top_penalties u 3 128 true.
Proof.
  apply (build_top_logits (reference true no_engine) features_100 3 128 false true
           abandoned_instance regularised_instance).
  vm_compute. reflexivity.
Defined.

(** ** The training head on an unprepared object *)

(** X4.  [_build_train_predict] needs the gold-label placeholder: on an
    object that has no [_y_ph] (none of its own, none inherited) it
    raises AttributeError for [_y_ph] in both modes, before anything is
    handed to the optimizer, and changes nothing. *)
Theorem build_train_predict_needs_y_ph env logits mask n_tags use_crf clip l2 st :
  self_dict st !! "_y_ph" = None ->
  inherited env !! "_y_ph" = None ->
  run (_build_train_predict env logits mask n_tags use_crf clip l2) st
    = (st, inl (AttributeError "_y_ph")).
Proof.
  intros Hown Hbase. unfold _build_train_predict.
  assert (Hy : run (getattr_tensor env "_y_ph") st = (st, inl (AttributeError "_y_ph"))).
  { unfold getattr_tensor. rewrite run_bind. unfold run at 1, getattr.
    rewrite Hown, Hbase. reflexivity. }
  rewrite run_bind. destruct use_crf; rewrite run_bind, Hy; reflexivity.
Qed.

Lemma build_train_predict_needs_y_ph_witness :
  run (_build_train_predict (reference true no_engine) logits_node mask_placeholder 3
         false 5 0) new_object
    = (new_object, inl (AttributeError "_y_ph")).
Proof.
  apply (build_train_predict_needs_y_ph (reference true no_engine) logits_node
           mask_placeholder 3 false 5 0 new_object).
  - reflexivity.
  - reflexivity.
Defined.
(** ** Attributes that no instance ever has *)

Lemma keeps_read_only P {A} (m : M A) : read_only m -> keeps P m.
Proof. intros H st HP. rewrite H. exact HP. Qed.

Lemma keeps_bind_returned P {A B} (m : M A) (k : A -> M B) :
  keeps P m ->
  (forall st st' a, run m st = (st', inr a) -> P st' -> P (fst (run (k a) st'))) ->
  keeps P (bind m k).
Proof.
  intros Hm Hk st HP. rewrite run_bind. specialize (Hm st HP).
  destruct (run m st) as [st1 [e | a]] eqn:E; simpl in *; [exact Hm |].
  eapply Hk; eauto.
Qed.

Lemma keeps_bind P {A B} (m : M A) (k : A -> M B) :
  keeps P m -> (forall a, keeps P (k a)) -> keeps P (bind m k).
Proof.
  intros Hm Hk. apply keeps_bind_returned; [exact Hm |].
  intros st st' a _ HP. apply Hk. exact HP.
Qed.

Lemma keeps_dense P inputs units act :
  (forall st penalties,
      P st -> P {| self_dict := self_dict st; regularization_losses := penalties |}) ->
  keeps P (tf_layers_dense inputs units act).
Proof. intros HP st H. unfold run, tf_layers_dense. simpl. apply HP. exact H. Qed.

Lemma encoder_units_read_only env cfg features : read_only (encoder_units env cfg features).
Proof.
  unfold encoder_units.
  repeat match goal with
         | |- read_only (if ?b then _ else _) => destruct b
         end;
    try apply read_only_raise; try apply read_only_ret;
    apply read_only_bind; intros;
    auto using build_cudnn_rnn_read_only, build_rnn_read_only, build_cnn_read_only,
      read_only_ret.
Qed.

Lemma build_top_keeps P env units n_tags n_hididden top_dropout two_dense :
  (forall st penalties,
      P st -> P {| self_dict := self_dict st; regularization_losses := penalties |}) ->
  keeps P (_build_top env units n_tags n_hididden top_dropout two_dense).
Proof.
  intros HP. unfold _build_top.
  apply keeps_bind.
  { apply keeps_read_only. destruct top_dropout; read_only_tac. }
  intros u. apply keeps_bind.
  { destruct two_dense; [apply keeps_dense; exact HP | apply keeps_read_only, read_only_ret]. }
  intros u'. apply keeps_dense. exact HP.
Qed.

(** The rest of the constructor never gets to its assignments. *)
Lemma build_network_keeps P env cfg features mask_ph :
  (forall st penalties,
      P st -> P {| self_dict := self_dict st; regularization_losses := penalties |}) ->
  keeps P (build_network env cfg features mask_ph).
Proof.
  intros HP. unfold build_network.
  apply keeps_bind; [apply keeps_read_only, encoder_units_read_only | intros u0].
  apply keeps_bind; [apply keeps_read_only; destruct u0; read_only_tac | intros u1].
  apply keeps_bind; [apply keeps_read_only, read_only_call | intros n_hidden].
  apply keeps_bind; [apply keeps_read_only; destruct u1; read_only_tac | intros u2].
  apply keeps_bind; [apply build_top_keeps; exact HP | intros logits].
  apply keeps_bind_returned;
    [apply keeps_read_only, build_train_predict_read_only |].
  intros st st' result Hrun HPst.
  apply build_train_predict_spec in Hrun as (_ & y & lr & op & _ & _ & _ & ->).
  rewrite run_bind, run_call, unpack3_pair. exact HPst.
Qed.

Lemma only_feature_names_frame st penalties :
  only_feature_names st ->
  only_feature_names {| self_dict := self_dict st; regularization_losses := penalties |}.
Proof. intros H. exact H. Qed.

Lemma feature_name_elem name :
  name ∈ ["learning_rate_ph"; "_dropout_ph"; "training_ph"; "_xs_placeholders";
          "_y_ph"; "_input_features"] ->
  name ∈ feature_names.
Proof. intros H. unfold feature_names. apply elem_of_list_to_set. exact H. Qed.

Lemma keeps_setattr_feature name v :
  name ∈ feature_names -> keeps only_feature_names (setattr name v).
Proof.
  intros Hn st H. rewrite run_setattr. unfold only_feature_names, set_attr in *; simpl.
  rewrite dom_insert_L.
  apply union_least; [apply singleton_subseteq_l; exact Hn | exact H].
Qed.

Lemma keeps_attr_append_feature env name t :
  name ∈ feature_names -> keeps only_feature_names (attr_append env name t).
Proof.
  intros Hn. unfold attr_append.
  apply keeps_bind; [apply keeps_read_only, read_only_getattr |].
  intros []; try apply keeps_read_only, read_only_raise.
  apply keeps_setattr_feature. exact Hn.
Qed.

(** Decomposes a feature builder into its statements. *)
Ltac keeps_tac :=
  repeat first
    [ apply keeps_read_only; solve [read_only_tac]
    | apply keeps_bind; [| intros ?]
    | apply keeps_attr_append_feature; apply feature_name_elem; repeat constructor
    | apply keeps_setattr_feature; apply feature_name_elem; repeat constructor
    | match goal with
      | |- keeps _ (match ?x with _ => _ end) => destruct x
      end ].

Lemma build_input_features_keeps env cfg :
  keeps only_feature_names (build_input_features env cfg).
Proof.
  unfold build_input_features, _build_training_placeholders, _build_word_embeddings,
    _build_mask, _build_char_embeddings, _build_capitalization, _build_pos.
  keeps_tac.
Qed.

Lemma init_keeps env cfg : keeps only_feature_names (__init__ env cfg).
Proof.
  unfold __init__.
  apply keeps_bind; [apply build_input_features_keeps | intros mask_ph].
  apply keeps_bind.
  { apply keeps_read_only. unfold aggregate_features. read_only_tac. }
  intros features. apply build_network_keeps. apply only_feature_names_frame.
Qed.

Lemma invoke_keeps env i st :
  only_feature_names st -> only_feature_names (invoke env i st).
Proof.
  destruct i; cbn [invoke];
    try (intros H; exact H);
    try apply init_keeps;
    try (rewrite predict_no_crf_read_only; intros H; exact H);
    match goal with
    | |- only_feature_names st -> only_feature_names (fst (run ?m st)) =>
        revert st; change (keeps only_feature_names m)
    end;
    try (apply build_top_keeps; apply only_feature_names_frame);
    unfold _build_training_placeholders, _build_word_embeddings, _build_mask,
      _build_char_embeddings, _build_capitalization, _build_pos, _build_cudnn_rnn,
      _build_rnn, _build_cnn, _build_train_predict, cudnn_rnn_body, rnn_body;
    keeps_tac.
Qed.

(** X5.  No instance ever owns a session, a training operation, a loss
    or a predict method: on every state that calls of the class's
    methods can bring an object to, the attribute dictionary holds only
    names set by the feature builders, so [sess], [train_op], [loss] and
    [predict] are absent (the constructor's assignments of lines 84-95
    are never reached). *)
Theorem no_instance_has_a_session env st :
  reachable env st ->
  only_feature_names st /\
  List.map (fun name => self_dict st !! name) ["sess"; "train_op"; "loss"; "predict"]
    = [None; None; None; None].
Proof.
  intros Hr.
  assert (Hinv : only_feature_names st).
  { induction Hr as [penalties | i st _ IH].
    - unfold only_feature_names; simpl. rewrite dom_empty_L. apply empty_subseteq.
    - apply invoke_keeps. exact IH. }
  split; [exact Hinv |].
  assert (Habs : forall name,
             name ∈ ["sess"; "train_op"; "loss"; "predict"] ->
             self_dict st !! name = None).
  { intros name Hn. apply not_elem_of_dom. intros Hd. apply Hinv in Hd.
    unfold feature_names in Hd. apply elem_of_list_to_set in Hd.
    repeat (apply elem_of_cons in Hn as [-> | Hn];
            [repeat (apply elem_of_cons in Hd as [Hd | Hd]; [discriminate Hd |]);
             apply elem_of_nil in Hd; exact Hd |]).
    apply elem_of_nil in Hn. exact Hn. }
  simpl. rewrite !Habs by repeat constructor. reflexivity.
Qed.

Lemma no_instance_has_a_session_witness :
  only_feature_names abandoned_instance /\
  List.map (fun name => self_dict abandoned_instance !! name)
    ["sess"; "train_op"; "loss"; "predict"]
    = [None; None; None; None].
Proof.
  apply (no_instance_has_a_session (reference true no_engine) abandoned_instance).
  apply (reachable_call _ (Call_init (default_config 3)) _ (reachable_new _ [])).
Defined.
(** ** What the constructor refuses, past the aggregation *)

Lemma build_rnn_no_layer env units cell drop st :
  run (_build_rnn env units [] cell drop) st = (st, inr units).
Proof. reflexivity. Qed.



(** ** The decoding loop *)

Lemma np_argmax_from_lt l : forall best_i best i,
  (best_i < i)%nat -> (np_argmax_from best_i best i l < i + length l)%nat.
Proof.
  induction l as [| x r IH]; intros best_i best i H; simpl.
  - lia.
  - destruct (Qle_bool x best).
    + specialize (IH best_i best (S i)). lia.
    + specialize (IH i x (S i)). lia.
Qed.

Lemma np_argmax_lt l : l <> [] -> (np_argmax l < length l)%nat.
Proof.
  destruct l as [| x r]; [contradiction |]. intros _. simpl.
  pose proof (np_argmax_from_lt r 0%nat x 1%nat). lia.
Qed.

Lemma viterbi_step_shape transition_params prev row :
  (1 <= length row)%nat ->
  length (fst (viterbi_step transition_params prev row)) = length row /\
  Forall (fun tag => (tag < length row)%nat) (snd (viterbi_step transition_params prev row)).
Proof.
  intros HT. unfold viterbi_step. cbn [fst snd]. split.
  - rewrite length_map, length_combine, !length_map, length_seq. lia.
  - rewrite Forall_forall. intros tag Hin. apply list_elem_of_In in Hin.
    apply in_map_iff in Hin as (col & <- & Hcol).
    apply in_map_iff in Hcol as (j & <- & _).
    match goal with
    | |- (np_argmax ?c < _)%nat =>
        assert (Hlen : length c = length row) by (rewrite length_map, length_seq; reflexivity);
        pose proof (np_argmax_lt c) as Hlt
    end.
    rewrite Hlen in Hlt. apply Hlt. intros Hnil. rewrite Hnil in Hlen. simpl in Hlen. lia.
Qed.

Lemma viterbi_forward_shape transition_params T rows :
  (1 <= T)%nat ->
  Forall (fun r => length r = T) rows ->
  forall prev, length prev = T ->
  length (fst (viterbi_forward transition_params prev rows)) = T /\
  Forall (Forall (fun tag => (tag < T)%nat))
    (snd (viterbi_forward transition_params prev rows)).
Proof.
  intros HT Hrows. induction Hrows as [| row rest Hrow _ IH]; intros prev Hprev.
  - simpl. auto.
  - rewrite viterbi_forward_cons.
    pose proof (viterbi_step_shape transition_params prev row ltac:(lia)) as [Hc Hb].
    destruct (viterbi_step transition_params prev row) as [cur bp]. cbn [fst snd] in *.
    specialize (IH cur ltac:(lia)).
    destruct (viterbi_forward transition_params cur rest) as [final bps].
    cbn [fst snd] in *. destruct IH as [Hf Hbs]. split; [exact Hf |].
    constructor; [rewrite <- Hrow; exact Hb | exact Hbs].
Qed.

Lemma viterbi_backtrack_tags T start bps :
  (start < T)%nat ->
  Forall (Forall (fun tag => (tag < T)%nat)) bps ->
  Forall (fun tag => (tag < T)%nat) (viterbi_backtrack start bps).
Proof.
  intros Hs Hb. unfold viterbi_backtrack.
  assert (H : forall acc,
             Forall (fun tag => (tag < T)%nat) acc ->
             Forall (fun tag => (tag < T)%nat)
               (fold_left
                  (fun viterbi bp => viterbi ++ [nth (List.last viterbi 0%nat) bp 0%nat])
                  bps acc)).
  { induction Hb as [| bp rest Hbp _ IH]; intros acc Hacc; simpl; [exact Hacc |].
    apply IH. apply Forall_app. split; [exact Hacc |]. constructor; [| constructor].
    destruct (nth_in_or_default (List.last acc 0%nat) bp 0%nat) as [Hin | ->]; [| lia].
    rewrite Forall_forall in Hbp. apply Hbp. apply list_elem_of_In. exact Hin. }
  apply H. constructor; [exact Hs | constructor].
Qed.

(** Every tag of a decoded path is a column of the score. *)
Lemma viterbi_decode_tags first rest transition_params path best :
  viterbi_decode (first :: rest) transition_params = inr (path, best) ->
  Forall (fun tag => (tag < length first)%nat) path.
Proof.
  unfold viterbi_decode.
  destruct (well_shaped (first :: rest) transition_params) eqn:Hw; [| discriminate].
  unfold well_shaped in Hw.
  apply andb_prop in Hw as [Hw _]. apply andb_prop in Hw as [Hw _].
  apply andb_prop in Hw as [HT Hrows].
  apply Nat.leb_le in HT.
  assert (Hall : Forall (fun r => length r = length first) rest).
  { simpl in Hrows. apply andb_prop in Hrows as [_ Hrows].
    rewrite Forall_forall. intros r Hr. apply list_elem_of_In in Hr.
    rewrite forallb_forall in Hrows. apply Nat.eqb_eq. apply Hrows. exact Hr. }
  pose proof (viterbi_forward_shape transition_params (length first) rest HT Hall first
                eq_refl) as [Hf Hb].
  destruct (viterbi_forward transition_params first rest) as [final bps].
  cbn [fst snd] in *. intros [= <- _].
  apply Forall_rev. apply viterbi_backtrack_tags.
  - rewrite <- Hf. apply np_argmax_lt. intros Hnil. rewrite Hnil in Hf. simpl in Hf. lia.
  - apply Forall_rev. exact Hb.
Qed.

(** One turn of the loop, by the number [m] of rows that the slice
    keeps: no row stops the loop with IndexError; otherwise a path of
    [m] tags below [T] joins [y_pred]. *)
Lemma crf_decode_body_cases L T (zs ts : list Q) k y_pred st :
  (1 <= T)%nat -> (L * T <= length zs)%nat -> length ts = (T * T)%nat ->
  let m := slice_count (Qtrunc k) L in
  let outcome := run (crf_decode_body (VArray (mk_nd [T; T] ts))
                        (mk_nd [L; T] zs, mk_nd [] [k]) y_pred) st in
  (m = 0%nat ->
   outcome = (st, inl (IndexError "index 0 is out of bounds for axis 0 with size 0"))) /\
  ((1 <= m)%nat ->
   exists path,
     outcome = (st, inr (Next (y_pred ++ [path]))) /\
     length path = m /\ Forall (fun tag => (tag < T)%nat) path).
Proof.
  intros HT Hz Ht m outcome. subst outcome. unfold crf_decode_body.
  rewrite run_bind, run_call. cbn [py_int nd_data].
  rewrite run_bind, run_call. unfold nd_slice_to. cbn [nd_shape nd_data].
  fold m.
  assert (HmL : (m <= L)%nat).
  { unfold m, slice_count. destruct (0 <=? Qtrunc k)%Z eqn:E; [lia |].
    apply Z.leb_gt in E. lia. }
  rewrite run_bind, run_call. unfold viterbi_decode_arrays, nd_matrix.
  cbn [nd_shape nd_data size_of fold_right].
  split.
  - intros Hm. rewrite Hm. reflexivity.
  - intros Hm.
    destruct (well_shaped_chunks m T (firstn (m * (T * 1)) zs) ts) as [Hne Hw];
      [lia | lia | | exact Ht |].
    { rewrite length_firstn. nia. }
    destruct (viterbi_decode_returns _ _ Hne Hw) as (path & best & Hv & Hlen).
    rewrite Hv. rewrite run_ret. exists path. split; [reflexivity |].
    split; [rewrite Hlen, chunks_length; reflexivity |].
    pose proof (chunks_rows m T (firstn (m * (T * 1)) zs)) as Hrows.
    destruct (chunks m T (firstn (m * (T * 1)) zs)) as [| first rest] eqn:E;
      [contradiction |].
    apply viterbi_decode_tags in Hv.
    assert (Hfirst : length first = T).
    { assert (Hr : Forall (fun r => length r = T) (first :: rest)).
      { apply Hrows. rewrite length_firstn. nia. }
      inversion Hr; assumption. }
    rewrite Hfirst in Hv. exact Hv.
Qed.
Lemma decode_loop_cases L T (ts : list Q) st :
  (1 <= T)%nat -> length ts = (T * T)%nat ->
  forall ks zs acc,
    length zs = (length ks * (L * T))%nat ->
    let loop :=
      run (for_each
             (combine (List.map (mk_nd [L; T]) (chunks (length ks) (L * (T * 1)) zs))
                      (List.map (mk_nd []) (List.map (fun x => [x]) ks)))
             (crf_decode_body (VArray (mk_nd [T; T] ts))) acc) st in
    (Forall (fun k => (1 <= slice_count (Qtrunc k) L)%nat) ks ->
     exists paths,
       loop = (st, inr (Next (acc ++ paths))) /\
       Forall2 (fun path k =>
                  length path = slice_count (Qtrunc k) L /\
                  Forall (fun tag => (tag < T)%nat) path) paths ks) /\
    (Exists (fun k => slice_count (Qtrunc k) L = 0%nat) ks ->
     loop = (st, inl empty_score_error)).
Proof.
  intros HT Ht. induction ks as [| k ks IH]; intros zs acc Hz loop; subst loop.
  - split.
    + intros _. exists []. rewrite app_nil_r. split; [reflexivity | constructor].
    + intros H. inversion H.
  - cbn [length chunks List.map combine]. rewrite for_each_cons, run_bind.
    destruct (crf_decode_body_cases L T (firstn (L * (T * 1)) zs) ts k acc st HT)
      as [Hzero Hpos]; [rewrite length_firstn; simpl in Hz; nia | exact Ht |].
    cbv zeta in Hzero, Hpos.
    assert (Htail : length (skipn (L * (T * 1)) zs) = (length ks * (L * T))%nat)
      by (rewrite length_skipn; simpl in Hz; nia).
    split.
    + intros Hall. inversion Hall as [| ? ? Hk Hks]; subst.
      destruct (Hpos Hk) as (path & Hrun & Hlen & Htags). rewrite Hrun.
      destruct (IH (skipn (L * (T * 1)) zs) (acc ++ [path]) Htail) as [IHok _].
      destruct (IHok Hks) as (paths & Hrest & Hpaths).
      rewrite Hrest. exists (path :: paths). split.
      * rewrite <- app_assoc. reflexivity.
      * constructor; [split; assumption | exact Hpaths].
    + intros Hex.
      destruct (slice_count (Qtrunc k) L) as [| m] eqn:Em.
      * rewrite (Hzero eq_refl). reflexivity.
      * destruct (Hpos ltac:(lia)) as (path & Hrun & _). rewrite Hrun.
        inversion Hex as [? ? Hk | ? ? Hks]; subst; [rewrite Em in Hk; discriminate Hk |].
        destruct (IH (skipn (L * (T * 1)) zs) (acc ++ [path]) Htail) as [_ IHerr].
        rewrite (IHerr Hks). reflexivity.
Qed.

Lemma decode_batch_loop B L T zs ts ks st :
  length ks = B ->
  run (decode_batch B L T zs ts ks) st =
  match run (for_each
               (combine (List.map (mk_nd [L; T]) (chunks (length ks) (L * (T * 1)) zs))
                        (List.map (mk_nd []) (List.map (fun x => [x]) ks)))
               (crf_decode_body (VArray (mk_nd [T; T] ts))) []) st with
  | (st', inl e) => (st', inl e)
  | (st', inr (Next y_pred)) => (st', inr y_pred)
  | (st', inr (Return y_pred)) => (st', inr y_pred)
  end.
Proof.
  intros Hks. unfold decode_batch, decode_sentences.
  rewrite run_bind, run_call. unfold iter_array, nd_items. cbn [nd_shape nd_data].
  rewrite run_bind, run_call. cbn [nd_shape nd_data size_of fold_right].
  subst B. rewrite chunks_singletons. rewrite run_bind.
  destruct (run _ st) as [st' [e | [y | y]]]; reflexivity.
Qed.

Lemma slice_count_clip k L :
  (1 <= k)%Z -> (1 <= L)%nat ->
  slice_count k L = Nat.min (Z.to_nat k) L /\ (1 <= slice_count k L)%nat.
Proof.
  intros Hk HL. unfold slice_count.
  destruct (0 <=? k)%Z eqn:E; [| apply Z.leb_gt in E; lia]. lia.
Qed.

(** X8.  The decoding loop of [predict_no_crf] (lines 200-204), on
    fetched arrays of shapes [B, L, T], [T, T] and [B] with every length
    at least 1, returns one path per sentence, in order; its length is
    the sentence's length truncated to an integer and clipped to the
    padded length [L]. *)
Theorem decode_batch_lengths B L T zs ts ks st :
  fetched_shapes B L T zs ts ks ->
  (1 <= L)%nat ->
  Forall (fun k => (1 <= Qtrunc k)%Z) ks ->
  exists paths,
    run (decode_batch B L T zs ts ks) st = (st, inr paths) /\
    List.map (@length nat) paths
      = List.map (fun k => Nat.min (Z.to_nat (Qtrunc k)) L) ks.
Proof.
  intros (HT & Hz & Ht & Hks) HL Hk.
  rewrite (decode_batch_loop B L T zs ts ks st Hks).
  destruct (decode_loop_cases L T ts st HT Ht ks zs []) as [Hok _];
    [subst B; exact Hz |].
  cbv zeta in Hok. destruct Hok as (paths & Hrun & Hpaths).
  { eapply Forall_impl; [exact Hk |]. intros k Hk1. simpl in Hk1.
    apply slice_count_clip; assumption. }
  rewrite Hrun. exists paths. split; [reflexivity |].
  clear Hrun Hks Hz. induction Hpaths as [| path k paths ks' [Hlen _] _ IH];
    [reflexivity |].
  inversion Hk as [| ? ? Hk1 Hk2]; subst. simpl.
  rewrite Hlen, (proj1 (slice_count_clip _ _ Hk1 HL)), (IH Hk2). reflexivity.
Qed.

(** X9.  Under the same conditions every tag of every returned path is a
    valid tag index: it is below the number [T] of tags. *)
Theorem decode_batch_tags_in_range B L T zs ts ks st :
  fetched_shapes B L T zs ts ks ->
  (1 <= L)%nat ->
  Forall (fun k => (1 <= Qtrunc k)%Z) ks ->
  exists paths,
    run (decode_batch B L T zs ts ks) st = (st, inr paths) /\
    Forall (Forall (fun tag => (tag < T)%nat)) paths.
Proof.
  intros (HT & Hz & Ht & Hks) HL Hk.
  rewrite (decode_batch_loop B L T zs ts ks st Hks).
  destruct (decode_loop_cases L T ts st HT Ht ks zs []) as [Hok _];
    [subst B; exact Hz |].
  cbv zeta in Hok. destruct Hok as (paths & Hrun & Hpaths).
  { eapply Forall_impl; [exact Hk |]. intros k Hk1. simpl in Hk1.
    apply slice_count_clip; assumption. }
  rewrite Hrun. exists paths. split; [reflexivity |].
  clear Hrun Hk Hks Hz.
  induction Hpaths as [| path k paths ks' [_ Htags] _ IH]; constructor.
  - exact Htags.
  - exact IH.
Qed.

(** X10.  One sentence of length 0 loses the whole batch: if some fetched
    length truncates to 0 (a sentence that is all padding), the loop
    raises IndexError, on the first row of an empty score, and returns
    no path at all, not even for the sentences before it. *)
Theorem decode_batch_empty_sentence B L T zs ts ks st :
  fetched_shapes B L T zs ts ks ->
  Exists (fun k => Qtrunc k = 0%Z) ks ->
  run (decode_batch B L T zs ts ks) st = (st, inl empty_score_error).
Proof.
  intros (HT & Hz & Ht & Hks) Hex.
  rewrite (decode_batch_loop B L T zs ts ks st Hks).
  destruct (decode_loop_cases L T ts st HT Ht ks zs []) as [_ Herr];
    [subst B; exact Hz |].
  cbv zeta in Herr. rewrite Herr; [reflexivity |].
  eapply Exists_impl; [exact Hex |]. intros k Hk0. simpl in Hk0.
  unfold slice_count. rewrite Hk0. reflexivity.
Qed.
Lemma example_fetched_shapes ks :
  length ks = 2%nat ->
  fetched_shapes 2 4 3 (nd_data example_logits) (nd_data example_transitions) ks.
Proof. intros H. unfold fetched_shapes. repeat split; [lia | exact H]. Qed.

Lemma decode_batch_lengths_witness :
  exists paths,
    run (decode_batch 2 4 3 (nd_data example_logits) (nd_data example_transitions)
           long_lengths) initial_state = (initial_state, inr paths) /\
    List.map (@length nat) paths
      = List.map (fun k => Nat.min (Z.to_nat (Qtrunc k)) 4) long_lengths.
Proof.
  apply (decode_batch_lengths 2 4 3 (nd_data example_logits)
           (nd_data example_transitions) long_lengths initial_state).
  - apply example_fetched_shapes. reflexivity.
  - lia.
  - unfold long_lengths.
    constructor; [vm_compute; discriminate |].
    constructor; [vm_compute; discriminate | constructor].
Defined.

Lemma decode_batch_tags_in_range_witness :
  exists paths,
    run (decode_batch 2 4 3 (nd_data example_logits) (nd_data example_transitions)
           long_lengths) initial_state = (initial_state, inr paths) /\
    Forall (Forall (fun tag => (tag < 3)%nat)) paths.
Proof.
  apply (decode_batch_tags_in_range 2 4 3 (nd_data example_logits)
           (nd_data example_transitions) long_lengths initial_state).
  - apply example_fetched_shapes. reflexivity.
  - lia.
  - unfold long_lengths.
    constructor; [vm_compute; discriminate |].
    constructor; [vm_compute; discriminate | constructor].
Defined.

Lemma decode_batch_empty_sentence_witness :
  run (decode_batch 2 4 3 (nd_data example_logits) (nd_data example_transitions)
         padded_out_lengths) initial_state = (initial_state, inl empty_score_error).
Proof.
  apply (decode_batch_empty_sentence 2 4 3 (nd_data example_logits)
           (nd_data example_transitions) padded_out_lengths initial_state).
  - apply example_fetched_shapes. reflexivity.
  - unfold padded_out_lengths. apply Exists_cons_tl. apply Exists_cons_hd. reflexivity.
Defined.
(** ** Sign of the loss *)

Lemma Rsum_nonneg l : Forall (fun x => (0 <= x)%R) l -> (0 <= Rsum l)%R.
Proof.
  induction 1 as [| x l Hx _ IH]; simpl; [lra | lra].
Qed.










Lemma Rsum_opp l : Rsum (List.map Ropp l) = (- Rsum l)%R.
Proof. induction l as [| x l IH]; simpl; [lra |]. rewrite IH. lra. Qed.

(** X12.  In CRF mode the loss that [_build_train_predict] returns is
    the mean of the negated log-likelihoods of the sentences, the
    likelihood node being given the row sums of the mask as sequence
    lengths; its value is minus the mean log-likelihood, hence at least
    0 when no log-likelihood is positive. *)
Theorem crf_loss_is_negated_mean
    env logits mask n_tags clip l2 st st' train_op loss y_ph input lls :
  run (_build_train_predict env logits mask n_tags true clip l2) st
    = (st', inr [train_op; VTensor loss]) ->
  run (getattr env "_y_ph") st = (st, inr (VTensor y_ph)) ->
  input (CrfLogLikelihood logits y_ph (ReduceSum mask 1))
    = Some (FloatArr (mk_nd [length lls] lls)) ->
  lls <> [] ->
  loss = ReduceMean (Neg (CrfLogLikelihood logits y_ph (ReduceSum mask 1))) /\
  eval input loss = Some (scalar (- Rsum lls / INR (length lls))) /\
  (Forall (fun ll => (ll <= 0)%R) lls -> (0 <= - Rsum lls / INR (length lls))%R).
Proof.
  intros Hrun Hy Hll Hne.
  apply build_train_predict_spec in Hrun
    as (_ & y' & lr & op & Hy' & _ & _ & Hres).
  rewrite Hy in Hy'. injection Hy' as <-. injection Hres as _ ->.
  split; [reflexivity |]. split.
  - unfold spec_base_loss. cbn [eval]. rewrite Hll.
    rewrite reduce_mean_nonempty.
    + cbn [nd_data fmap option_fmap option_map]. unfold scalar.
      rewrite Rsum_opp, length_map. reflexivity.
    + cbn [nd_data]. destruct lls; [contradiction | discriminate].
  - intros Hneg. apply Rmult_le_pos.
    + assert (H : (0 <= Rsum (List.map Ropp lls))%R).
      { apply Rsum_nonneg. rewrite Forall_forall. intros x Hx.
        apply list_elem_of_In in Hx. apply in_map_iff in Hx as (ll & <- & Hin).
        rewrite Forall_forall in Hneg.
        specialize (Hneg ll ltac:(apply list_elem_of_In; exact Hin)). lra. }
      rewrite Rsum_opp in H. exact H.
    + left. apply Rinv_0_lt_compat. apply lt_0_INR.
      destruct lls; [contradiction | simpl; lia].
Qed.

Lemma crf_loss_is_negated_mean_witness :
  crf_loss = ReduceMean (Neg crf_log_likelihood_node) /\
  eval crf_input crf_loss = Some (scalar (- Rsum [-3; -5]%R / INR 2)) /\
  (Forall (fun ll => (ll <= 0)%R) [-3; -5]%R -> (0 <= - Rsum [-3; -5]%R / INR 2)%R).
Proof.
  apply (crf_loss_is_negated_mean (reference true no_engine) logits_node mask_placeholder
           3%Z 5 0 abandoned_instance abandoned_instance
           (VTrainOp crf_loss learning_rate_placeholder 5)
           crf_loss y_placeholder crf_input [-3; -5]%R).
  - vm_compute. reflexivity.
  - vm_compute. reflexivity.
  - reflexivity.
  - discriminate.
Defined.

(** ** Edges of the regularisation *)

(** X13.  A negative [l2_reg] is not refused but silently ignored: the
    optimizer receives the base loss.  And with [l2_reg > 0] on a graph
    in which no penalty has been collected, the total loss has no value:
    the mean of an empty collection is not a number. *)
Theorem l2_edge_cases
    env logits mask n_tags use_crf clip l2 st st' train_op loss :
  run (_build_train_predict env logits mask n_tags use_crf clip l2) st
    = (st', inr [train_op; VTensor loss]) ->
  exists total learning_rate,
    get_train_op env total learning_rate clip = inr train_op /\
    ((l2 < 0)%Q -> total = loss) /\
    ((0 < l2)%Q -> regularization_losses st = [] ->
     total = Add loss (Mul (Const l2) (ReduceMean (Pack []))) /\
     forall input, eval input total = None).
Proof.
  intros Hrun.
  apply build_train_predict_spec in Hrun as (_ & y & lr & op & _ & _ & Hop & Hres).
  injection Hres as -> ->.
  eexists _, lr. split; [exact Hop |]. unfold spec_total_loss. split.
  - intros Hneg.
    assert (Hn : Qpositive l2 = false).
    { apply not_true_is_false. rewrite Qpositive_spec. intros Hlt.
      exact (Qlt_irrefl 0 (Qlt_trans _ _ _ Hlt Hneg)). }
    rewrite Hn. reflexivity.
  - intros Hpos Hempty. apply Qpositive_spec in Hpos. rewrite Hpos, Hempty.
    split; [reflexivity |].
    intros input. cbn [eval fold_right pack reduce_mean nd_data fmap option_fmap option_map].
    destruct (eval input (spec_base_loss use_crf logits y mask n_tags)) as [[x | x] |];
      reflexivity.
Qed.

Lemma l2_edge_cases_witness :
  exists total learning_rate,
    get_train_op (reference true no_engine) total learning_rate 5
      = inr (VTrainOp example_softmax_loss learning_rate_placeholder 5) /\
    ((- (1 # 2) < 0)%Q -> total = example_softmax_loss) /\
    ((0 < - (1 # 2))%Q -> regularization_losses abandoned_instance = [] ->
     total = Add example_softmax_loss (Mul (Const (- (1 # 2))) (ReduceMean (Pack []))) /\
     forall input, eval input total = None).
Proof.
  apply (l2_edge_cases (reference true no_engine) logits_node mask_placeholder 3%Z false
           5 (- (1 # 2)) abandoned_instance abandoned_instance
           (VTrainOp example_softmax_loss learning_rate_placeholder 5)
           example_softmax_loss).
  vm_compute. reflexivity.
Defined.

(** ** The features of a configuration without flags *)

(** X14.  With the capitalization and POS features off and no dropout on
    the embeddings, the only feature the builders register is the output
    of the embedding layer itself, whether or not character embeddings
    were asked for, and the run-time inputs are the token ids and the
    mask; in general there is exactly one more run-time input than there
    are features (the mask is an input and no feature). *)
Theorem features_without_flags env cfg st st' mask_ph :
  run (build_input_features env cfg) st = (st', inr mask_ph) ->
  exists emb0 xs fs,
    embedding_layer env token_indices_ph (token_emb_mat cfg) = inr emb0 /\
    self_dict st' !! "_xs_placeholders" = Some (VTensorList xs) /\
    self_dict st' !! "_input_features" = Some (VTensorList fs) /\
    length xs = S (length fs) /\
    (capitalization_dim cfg = None -> pos_features_dim cfg = None ->
     xs = [token_indices_ph; mask_ph] /\
     (embeddings_dropout cfg = false -> fs = [emb0])).
Proof.
  intros H.
  apply build_input_features_spec in H as (-> & emb0 & emb & Hl & Hd & Hxs & Hfs).
  exists emb0. eexists _, _. split; [exact Hl |]. split; [exact Hxs |].
  split; [exact Hfs |]. split; [reflexivity |].
  intros Hc Hp. unfold flag_placeholders. rewrite Hc, Hp. simpl.
  split; [reflexivity |]. intros Hdrop. rewrite Hdrop in Hd. subst emb. reflexivity.
Qed.

Lemma features_without_flags_witness :
  exists emb0 xs fs,
    embedding_layer (reference true no_engine) token_indices_ph (token_emb_mat plain_config)
      = inr emb0 /\
    self_dict plain_instance !! "_xs_placeholders" = Some (VTensorList xs) /\
    self_dict plain_instance !! "_input_features" = Some (VTensorList fs) /\
    length xs = S (length fs) /\
    (capitalization_dim plain_config = None -> pos_features_dim plain_config = None ->
     xs = [token_indices_ph; mask_placeholder] /\
     (embeddings_dropout plain_config = false -> fs = [emb0])).
Proof.
  apply (features_without_flags (reference true no_engine) plain_config new_object
           plain_instance mask_placeholder).
  vm_compute. reflexivity.
Defined.

(** ** The feature builders keep the two lists in step *)



(** ** The two recurrent builders, for every list of layers *)

(** X16.  With collaborators that behave as the reference ones, the
    plain recurrent builder applies one layer per entry of a non-empty
    [n_hidden_list], in order and with the widths of the list, for lstm
    and gru cells and with or without intra-layer dropout; its output
    has twice the width of the last entry, and the instance is left
    unchanged. *)
Theorem plain_rnn_applies_every_layer gpu engine cell drop keep hs units st :
  cell = "lstm" \/ cell = "gru" ->
  self_dict st !! "_dropout_ph" = Some (VTensor keep) ->
  hs <> [] ->
  exists t,
    run (_build_rnn (reference gpu engine) units hs cell drop) st = (st, inr t) /\
    List.map snd (layers_of t) = List.map snd (layers_of units) ++ List.map Some hs /\
    last_dim t = Some (2 * List.last hs 0)%Z.
Proof. apply build_rnn_reference. Qed.

Lemma plain_rnn_applies_every_layer_witness :
  exists t,
    run (_build_rnn (reference false no_engine) features_100 [128; 64; 32]%Z "gru" true)
      abandoned_instance = (abandoned_instance, inr t) /\
    List.map snd (layers_of t)
      = List.map snd (layers_of features_100) ++ List.map Some [128; 64; 32]%Z /\
    last_dim t = Some (2 * List.last [128; 64; 32]%Z 0)%Z.
Proof.
  apply (plain_rnn_applies_every_layer false no_engine "gru" true
           (PlaceholderWithDefault 1 "dropout") [128; 64; 32]%Z features_100
           abandoned_instance).
  - right. reflexivity.
  - vm_compute. reflexivity.
  - discriminate.
Defined.

(** X17.  The fused recurrent builder reads [n_hidden_list] through its
    first entry and its length only, for every behaviour of the
    collaborators: two lists with the same first entry and the same
    length give the same outcome, whatever the later entries are. *)
Theorem fused_rnn_reads_first_layer_only env units h rest rest' cell drop st :
  length rest = length rest' ->
  run (_build_cudnn_rnn env units (h :: rest) cell drop) st =
  run (_build_cudnn_rnn env units (h :: rest') cell drop) st.
Proof. apply cudnn_rnn_ignores_later_layers. Qed.

Lemma fused_rnn_reads_first_layer_only_witness :
  run (_build_cudnn_rnn (reference true no_engine) features_100 [128; 64; 32]%Z "lstm"
         true) abandoned_instance =
  run (_build_cudnn_rnn (reference true no_engine) features_100 [128; 7; 1000]%Z "lstm"
         true) abandoned_instance.
Proof.
  apply (fused_rnn_reads_first_layer_only (reference true no_engine) features_100 128%Z
           [64; 32]%Z [7; 1000]%Z "lstm" true abandoned_instance).
  reflexivity.
Defined.

(** ** A network type the constructor does not know *)

(** X7.  [net_type] is matched exactly against 'rnn' and 'cnn' and there
    is no other branch: for any other value (another letter case
    included), for every behaviour of the collaborators, the rest of the
    constructor builds nothing and raises UnboundLocalError for [units],
    leaving the state unchanged. *)
Theorem net_type_has_no_fallback env cfg features mask_ph st :
  net_type cfg <> "rnn" -> net_type cfg <> "cnn" ->
  run (build_network env cfg features mask_ph) st = (st, inl (UnboundLocalError "units")).
Proof. apply unknown_net_type_unbound. Qed.

Lemma net_type_has_no_fallback_witness :
  run (build_network (reference true no_engine)
         (configure "RNN" "lstm" false 0 false) features_100 mask_placeholder)
    new_object = (new_object, inl (UnboundLocalError "units")).
Proof.
  apply (net_type_has_no_fallback (reference true no_engine)
           (configure "RNN" "lstm" false 0 false) features_100 mask_placeholder
           new_object).
  - discriminate.
  - discriminate.
Defined.
